(** * The adaptive interview engine of Backend/services/temp.py

    A shallow embedding of [chat_with_founder] and [analyze_and_extract]
    and the properties of the turn they implement: the completion
    policy, the extraction merge, the choice of the next questions, the
    reply post-processing and the fallbacks taken when the reasoning
    service fails. *)

From Stdlib Require Import Ascii String.
From stdpp Require Import gmap strings list fin_maps pretty.

Set Warnings "-register-all,-clear-no-such-hyp".
Local Open Scope string_scope.

(** ** Python strings

    A [str] is modelled by [string]; a character stands for one code
    point below 256. Only the operations used by the engine are given. *)
Module PyStr.

(** [str.isspace] on one code point (range 0..255). *)
Definition isspace (c : ascii) : bool :=
  let n := nat_of_ascii c in
  ((9 <=? n)%nat && (n <=? 13)%nat) || ((28 <=? n)%nat && (n <=? 32)%nat)
  || (n =? 133)%nat || (n =? 160)%nat.

Fixpoint lstrip (s : string) : string :=
  match s with
  | EmptyString => EmptyString
  | String c s' => if isspace c then lstrip s' else s
  end.

Fixpoint rstrip (s : string) : string :=
  match s with
  | EmptyString => EmptyString
  | String c s' =>
      match rstrip s' with
      | EmptyString => if isspace c then EmptyString else String c EmptyString
      | r => String c r
      end
  end.

(** [s.strip()] *)
Definition strip (s : string) : string := rstrip (lstrip s).

(** [s.endswith(suffix)]: some tail of [s] is [suffix]. *)
Fixpoint endswith (s suffix : string) : bool :=
  String.eqb s suffix ||
  match s with
  | EmptyString => false
  | String _ s' => endswith s' suffix
  end.

(** [sub in s]: some tail of [s] starts with [sub]. *)
Fixpoint contains (s sub : string) : bool :=
  String.prefix sub s ||
  match s with
  | EmptyString => false
  | String _ s' => contains s' sub
  end.

(** [s[:-1]] *)
Fixpoint drop_last (s : string) : string :=
  match s with
  | EmptyString => EmptyString
  | String c EmptyString => EmptyString
  | String c s' => String c (drop_last s')
  end.

(** [bool(s)]: a string is truthy when it is not empty. *)
Definition truthy (s : string) : bool :=
  match s with EmptyString => false | _ => true end.

(** The last character of a string, when there is one. *)
Fixpoint last_char (s : string) : option ascii :=
  match s with
  | EmptyString => None
  | String c EmptyString => Some c
  | String _ s' => last_char s'
  end.

End PyStr.

(** ** Python lists *)

(** [l[-n:]] for a positive [n]. *)
Definition last_n {A} (n : nat) (l : list A) : list A :=
  drop (length l - n) l.

(** ** JSON values, as [json.loads] builds them

    A dict is given by its items in insertion order, each key once;
    numbers are never inspected by the engine. *)
Inductive json : Type :=
  | JNull
  | JBool (b : bool)
  | JNum (n : Z)
  | JStr (s : string)
  | JList (l : list json)
  | JDict (d : list (string * json)).

(** Exceptions raised inside the two [try] blocks. *)
Inductive exn : Type :=
  | ServiceFailure
  | ValueError (msg : string)
  | AttributeError
  | TypeError
  | JSONDecodeError.

Module PyJson.

(** [d.get(key)] on the items of a dict. *)
Fixpoint lookup_items (key : string) (d : list (string * json)) : option json :=
  match d with
  | [] => None
  | (k, v) :: d' => if String.eqb k key then Some v else lookup_items key d'
  end.

(** [v.get(key, dflt)]: only a dict has [get]. *)
Definition get (v : json) (key : string) (dflt : json) : exn + json :=
  match v with
  | JDict d => inr (default dflt (lookup_items key d))
  | _ => inl AttributeError
  end.

(** [v.items()]: only a dict has [items]. *)
Definition items (v : json) : exn + list (string * json) :=
  match v with
  | JDict d => inr d
  | _ => inl AttributeError
  end.

Fixpoint chars (s : string) : list json :=
  match s with
  | EmptyString => []
  | String c s' => JStr (String c EmptyString) :: chars s'
  end.

(** [for f in v]: a list yields its elements, a string its characters,
    a dict its keys; anything else is not iterable. *)
Definition iter (v : json) : exn + list json :=
  match v with
  | JList l => inr l
  | JStr s => inr (chars s)
  | JDict d => inr (JStr <$> d.*1)
  | _ => inl TypeError
  end.

(** [v in strs] for a list of strings: only an equal string is a member. *)
Definition in_strs (v : json) (strs : list string) : bool :=
  match v with
  | JStr s => bool_decide (s ∈ strs)
  | _ => false
  end.

(** [data.get('confidence') in ['high', 'medium']] on the items of [data];
    a missing key reads as [None]. *)
Definition confidence_accepted (d : list (string * json)) : bool :=
  in_strs (default JNull (lookup_items "confidence" d)) ["high"; "medium"].

End PyJson.

(** ** Data model *)

(** One entry of [interview_data['issues']]. *)
Record issue : Type := Issue {
  field : string;
  question : string;
  category : string;
  importance : string;
  status : string
}.

(** One entry of [chat_history]. *)
Record chat_msg : Type := ChatMsg {
  role : string;
  message : string
}.

(** [interview_data]. The three names are read with a default, so they
    are optional; a missing [issues], [gathered_info] or
    [cannot_answer_fields] reads as the empty value. *)
Record interview_data : Type := InterviewData {
  company_name : option string;
  sector : option string;
  founder_name : option string;
  issues : list issue;
  gathered_info : gmap string json;
  cannot_answer_fields : list string
}.

(** The dict returned by [analyze_and_extract]. *)
Record extraction : Type := MkExtraction {
  ex_is_complete : bool;
  ex_gathered_info : gmap string json;
  ex_still_pending : list string;
  ex_cannot_answer_fields : list string
}.

(** The dict returned by [chat_with_founder]. *)
Record turn_result : Type := MkTurnResult {
  tr_message : string;
  tr_is_complete : bool;
  tr_gathered_info : gmap string json;
  tr_cannot_answer_fields : list string
}.

(** ** The reasoning service

    What [client.models.generate_content] does, seen from the caller:
    it raises (transport error, timeout), or returns an object that is
    [None] or has no [text], or returns an object whose [text] is [None]
    or a string. *)
Inductive response : Type :=
  | Raises
  | NoText
  | Text (text : option string).

(** The prompts sent to the service, given by the template used and the
    values interpolated into it. *)
Inductive prompt : Type :=
  | ClosingPrompt (founder company : string) (total answered couldnt : nat)
      (user_message : string)
  | ContinuationPrompt (founder company sector_name : string)
      (progress total : nat) (user_message : string)
      (dont_know : list string) (q1 q2 q3 : string)
      (recent : list chat_msg)
  | AnalysisPrompt (fields_needed : list (string * string * string))
      (already_have : list string) (conversation : list string).

(** Computations that call the service. *)
Inductive svc (A : Type) : Type :=
  | Ret (a : A)
  | Ask (p : prompt) (k : response -> svc A).
Arguments Ret {A} a.
Arguments Ask {A} p k.

Fixpoint svc_bind {A B} (f : A -> svc B) (m : svc A) : svc B :=
  match m with
  | Ret a => f a
  | Ask p k => Ask p (fun r => svc_bind f (k r))
  end.

#[global] Instance svc_mret : MRet svc := @Ret.
#[global] Instance svc_mbind : MBind svc := @svc_bind.

(** Run a computation against a service. *)
Fixpoint run {A} (service : prompt -> response) (m : svc A) : A :=
  match m with
  | Ret a => a
  | Ask p k => run service (k (service p))
  end.

(** The prompts a computation sends, in order. *)
Fixpoint asked {A} (service : prompt -> response) (m : svc A) : list prompt :=
  match m with
  | Ret _ => []
  | Ask p k => p :: asked service (k (service p))
  end.

(** Sequencing inside a [try] block: the first exception ends it. *)
Definition exn_bind {A B} (f : A -> exn + B) (m : exn + A) : exn + B :=
  match m with
  | inl e => inl e
  | inr a => f a
  end.

#[global] Instance exn_mbind : MBind (sum exn) := @exn_bind.

(** ** The engine *)

(** [ai_message] after the question-mark rule of continuation mode. *)
Definition enforce_question_mark (ai_message : string) : string :=
  if negb (PyStr.endswith ai_message "?") then
    if negb (existsb (fun p => PyStr.endswith ai_message p) ["?"; "!"; "."])
    then ai_message ++ "?"
    else if PyStr.endswith ai_message "." then
      if negb (PyStr.contains ai_message "?")
      then PyStr.drop_last ai_message ++ "?"
      else ai_message
    else ai_message
  else ai_message.

(** [merged.keys()], [gathered_info.keys()]: the keys of the map, each
    once; the order in which a dict lists them is not modelled. *)
Definition keys (m : gmap string json) : list string := (map_to_list m).*1.

Definition all_issue_fields (issues : list issue) : list string :=
  field <$> issues.

(** [[f for f in gathered_info.keys() if f in all_issue_fields]] *)
Definition gathered_issue_fields (d : interview_data) : list string :=
  filter (λ f, f ∈ all_issue_fields (issues d)) (keys (gathered_info d)).

(** The issues still to ask about, in catalog order. *)
Definition still_needed (d : interview_data) : list issue :=
  filter (λ i, (field i ∉ gathered_issue_fields d)
               ∧ (field i ∉ cannot_answer_fields d)) (issues d).

Definition recent_context (chat_history : list chat_msg) : list chat_msg :=
  if bool_decide (10 < length chat_history)%nat then last_n 10 chat_history
  else chat_history.

(** [[q['question'] for q in still_needed[:3]]] *)
Definition next_questions (d : interview_data) : list string :=
  question <$> take 3 (still_needed d).

Definition will_be_closing (d : interview_data) : bool :=
  bool_decide (length (still_needed d) ≤ 0)%nat.

Definition the_company (d : interview_data) : string :=
  default "your startup" (company_name d).
Definition the_sector (d : interview_data) : string :=
  default "your industry" (sector d).
Definition the_founder (d : interview_data) : string :=
  default "Founder" (founder_name d).

(** The prompt of the turn: closing or continuation. *)
Definition reply_prompt (d : interview_data) (user_message : string)
    (chat_history : list chat_msg) : prompt :=
  if will_be_closing d then
    ClosingPrompt (the_founder d) (the_company d)
      (length (all_issue_fields (issues d)))
      (length (gathered_issue_fields d))
      (length (cannot_answer_fields d))
      user_message
  else
    ContinuationPrompt (the_founder d) (the_company d) (the_sector d)
      (length (gathered_issue_fields d) + length (cannot_answer_fields d))
      (length (all_issue_fields (issues d)))
      user_message
      (take 5 (cannot_answer_fields d))
      (default "Tell me about your financials?" (next_questions d !! 0))
      (default "Tell me about your team?" (next_questions d !! 1))
      (default "Tell me about your market?" (next_questions d !! 2))
      (last_n 6 (recent_context chat_history)).

(** The body of the [try] block of [chat_with_founder]. *)
Definition reply_of_response (closing : bool) (r : response) : exn + string :=
  match r with
  | Raises => inl ServiceFailure
  | NoText => inl (ValueError "Invalid API response")
  | Text None => inl AttributeError
  | Text (Some t) =>
      let ai_message := PyStr.strip t in
      if negb (PyStr.truthy ai_message)
      then inl (ValueError "Empty response from AI")
      else inr (if negb closing then enforce_question_mark ai_message
                else ai_message)
  end.

(** The [except] block of [chat_with_founder]. *)
Definition fallback_reply (d : interview_data) : string :=
  if will_be_closing d then
    "Thank you so much for your time, " ++ the_founder d
    ++ "! We've gathered excellent insights about " ++ the_company d
    ++ ". I'll update our investment memo and get back to you within 2-3 weeks with our feedback. Best of luck with everything!"
  else
    let next_q := match still_needed d with
                  | q :: _ => question q
                  | [] => "What else can you tell me?"
                  end in
    "Thanks for sharing! " ++ next_q.

(** [ai_message] as the turn returns it. *)
Definition reply (d : interview_data) (r : response) : string :=
  match reply_of_response (will_be_closing d) r with
  | inr ai_message => ai_message
  | inl _ => fallback_reply d
  end.

(** The merge loop over [result.get('extracted', {}).items()]. The test
    short-circuits: [data.get] is only reached for a catalog field, and
    raises when [data] is not a dict. *)
Fixpoint merge_extracted (fields : list string) (its : list (string * json))
    (merged : gmap string json) : exn + gmap string json :=
  match its with
  | [] => inr merged
  | (f, data) :: rest =>
      if bool_decide (f ∈ fields) then
        match data with
        | JDict d =>
            if PyJson.confidence_accepted d
            then merge_extracted fields rest (<[f := data]> merged)
            else merge_extracted fields rest merged
        | _ => inl AttributeError
        end
      else merge_extracted fields rest merged
  end.

(** [[f for f in cannot_answer if f in all_issue_fields]]: the members
    kept are strings, since the catalog fields are. *)
Fixpoint catalog_matches (fields : list string) (l : list json) : list string :=
  match l with
  | [] => []
  | JStr s :: l' =>
      if bool_decide (s ∈ fields) then s :: catalog_matches fields l'
      else catalog_matches fields l'
  | _ :: l' => catalog_matches fields l'
  end.

(** [is_complete] as computed from the merged map and the two lists. *)
Definition completion (fields : list string) (merged : gmap string json)
    (existing_cannot_answer new_cannot_answer : list string) : bool :=
  let gathered_count := length (filter (λ f, f ∈ fields) (keys merged)) in
  let total_cannot_answer :=
    size (list_to_set (existing_cannot_answer ++ new_cannot_answer) : gset string) in
  let total_attempted := (gathered_count + total_cannot_answer)%nat in
  let total_issues := length fields in
  bool_decide (total_issues ≤ total_attempted)%nat.

(** What [analyze_and_extract] returns when it skips or gives up. *)
Definition unchanged (gathered_info : gmap string json)
    (pending : list string) : extraction :=
  {| ex_is_complete := false;
     ex_gathered_info := gathered_info;
     ex_still_pending := pending;
     ex_cannot_answer_fields := [] |}.

Section Engine.

(** [json.loads]; [None] stands for [JSONDecodeError]. *)
Variable json_loads : string -> option json.

(** The part of the [try] block that follows [json.loads]. *)
Definition merge_result (issues : list issue) (gathered_info : gmap string json)
    (existing_cannot_answer : list string) (result : json) : exn + extraction :=
  let fields := all_issue_fields issues in
  extracted ← PyJson.get result "extracted" (JDict []);
  its ← PyJson.items extracted;
  merged ← merge_extracted fields its gathered_info;
  declared ← PyJson.get result "cannot_answer" (JList []);
  declared_list ← PyJson.iter declared;
  let new_cannot_answer := catalog_matches fields declared_list in
  inr {| ex_is_complete :=
           completion fields merged existing_cannot_answer new_cannot_answer;
         ex_gathered_info := merged;
         ex_still_pending :=
           filter (λ f, (f ∉ keys merged) ∧ (f ∉ existing_cannot_answer)) fields;
         ex_cannot_answer_fields := new_cannot_answer |}.

(** The body of the [try] block of [analyze_and_extract]. *)
Definition extract_of_response (issues : list issue)
    (gathered_info : gmap string json) (existing_cannot_answer : list string)
    (r : response) : exn + extraction :=
  match r with
  | Raises => inl ServiceFailure
  | NoText | Text None => inl (ValueError "Invalid API response")
  | Text (Some t) =>
      let response_text := PyStr.strip t in
      if negb (PyStr.truthy response_text) then inl (ValueError "Empty response")
      else match json_loads response_text with
           | None => inl JSONDecodeError
           | Some result =>
               merge_result issues gathered_info existing_cannot_answer result
           end
  end.

Definition user_messages (chat_history : list chat_msg) : list chat_msg :=
  filter (λ msg, role msg = "user") chat_history.

(** [fields_needed]: the issues whose field is not a key of [gathered_info]. *)
Definition fields_needed (issues : list issue)
    (gathered_info : gmap string json) : list issue :=
  filter (λ i, ¬ is_Some (gathered_info !! field i)) issues.

Definition conversation (chat_history : list chat_msg) : list string :=
  (λ msg, (if bool_decide (role msg = "assistant") then "Analyst" else "Founder")
          ++ ": " ++ message msg) <$> last_n 10 chat_history.

Definition analysis_prompt (issues : list issue)
    (gathered_info : gmap string json) (chat_history : list chat_msg) : prompt :=
  AnalysisPrompt
    (take 10 ((λ i, (field i, question i, category i))
              <$> fields_needed issues gathered_info))
    (filter (λ f, f ∈ all_issue_fields issues) (keys gathered_info))
    (last_n 4 (conversation chat_history)).

Definition analyze_and_extract (issues : list issue)
    (gathered_info : gmap string json) (existing_cannot_answer : list string)
    (chat_history : list chat_msg) : svc extraction :=
  if bool_decide (length (user_messages chat_history) < 2)%nat then
    Ret (unchanged gathered_info (field <$> issues))
  else
    Ask (analysis_prompt issues gathered_info chat_history) (fun r =>
      Ret (match extract_of_response issues gathered_info
                   existing_cannot_answer r with
           | inr e => e
           | inl _ => unchanged gathered_info
                        (field <$> fields_needed issues gathered_info)
           end)).

Definition chat_with_founder (d : interview_data) (user_message : string)
    (chat_history : list chat_msg) : svc turn_result :=
  Ask (reply_prompt d user_message chat_history) (fun r =>
    let ai_message := reply d r in
    completion_check ←
      analyze_and_extract (issues d) (gathered_info d) (cannot_answer_fields d)
        (chat_history ++ [ChatMsg "user" user_message;
                          ChatMsg "assistant" ai_message]);
    mret {| tr_message := ai_message;
            tr_is_complete := ex_is_complete completion_check;
            tr_gathered_info := ex_gathered_info completion_check;
            tr_cannot_answer_fields := ex_cannot_answer_fields completion_check |}).

End Engine.

(** ** Notions used to state the properties *)

(** The catalog fields outside both [gathered_info] and
    [cannot_answer_fields], in catalog order, in the words of the
    specification. *)
Definition still_needed_spec (d : interview_data) : list issue :=
  filter (λ i, (¬ is_Some (gathered_info d !! field i))
               ∧ (field i ∉ cannot_answer_fields d)) (issues d).

(** The attempted fields: the keys of [gathered_info] together with the
    cannot-answer fields. *)
Definition attempted (gathered : gmap string json) (cannot : list string)
    : gset string :=
  dom gathered ∪ list_to_set cannot.

(** The distinct catalog fields covered by the gathered keys and the
    cannot-answer fields, in the words of the specification. *)
Definition covered_spec (fields : list string) (gathered : gmap string json)
    (cannot : list string) : gset string :=
  list_to_set fields ∩ attempted gathered cannot.

(** Completion in the words of the specification. *)
Definition completion_spec (fields : list string) (gathered : gmap string json)
    (cannot : list string) : bool :=
  bool_decide (length fields ≤ size (covered_spec fields gathered cannot))%nat.

(** The reply after the question-mark rule, in the words of the
    specification. *)
Definition question_mark_spec (m : string) : string :=
  match PyStr.last_char m with
  | Some "?"%char => m
  | Some "."%char =>
      if PyStr.contains m "?" then m else PyStr.drop_last m ++ "?"
  | Some "!"%char => m
  | _ => m ++ "?"
  end.

(** Ways in which the reply generation call fails. *)
Inductive generation_fails : response -> Prop :=
  | gen_raises : generation_fails Raises
  | gen_no_text : generation_fails NoText
  | gen_text_none : generation_fails (Text None)
  | gen_empty t : PyStr.strip t = "" -> generation_fails (Text (Some t)).

(** A proposal that the merge loop stores: its field is a catalog field
    and its data is a dict whose confidence is high or medium. *)
Definition accepted (fields : list string) (f : string) (data : json) : Prop :=
  f ∈ fields ∧ ∃ d, data = JDict d ∧ PyJson.confidence_accepted d = true.

(** The two modes of reply composition. *)
Inductive mode : Type := Closing | Continuation.

(** The mode a prompt asks the service to write in. *)
Definition prompt_mode (p : prompt) : option mode :=
  match p with
  | ClosingPrompt _ _ _ _ _ _ => Some Closing
  | ContinuationPrompt _ _ _ _ _ _ _ _ _ _ _ => Some Continuation
  | AnalysisPrompt _ _ _ => None
  end.

Section Observations.

Variable json_loads : string -> option json.

(** The structured result carried by a response, when it parses. *)
Definition parsed (r : response) : option json :=
  match r with
  | Text (Some t) =>
      if PyStr.truthy (PyStr.strip t) then json_loads (PyStr.strip t) else None
  | _ => None
  end.

(** The field extractions a response proposes. *)
Definition proposals (r : response) : list (string * json) :=
  match parsed r with
  | Some (JDict d) =>
      match default (JDict []) (PyJson.lookup_items "extracted" d) with
      | JDict its => its
      | _ => []
      end
  | _ => []
  end.

(** The members of [cannot_answer] a response declares. *)
Definition declared (r : response) : list json :=
  match parsed r with
  | Some (JDict d) =>
      match PyJson.iter (default (JList []) (PyJson.lookup_items "cannot_answer" d)) with
      | inr l => l
      | inl _ => []
      end
  | _ => []
  end.

(** Ways in which the extraction call fails: the service raises or
    times out, returns nothing usable, returns text that does not
    parse, or returns a result of the wrong shape. *)
Inductive extraction_fails (issues : list issue) (gathered : gmap string json)
    (existing : list string) : response -> Prop :=
  | ext_raises : extraction_fails issues gathered existing Raises
  | ext_no_text : extraction_fails issues gathered existing NoText
  | ext_text_none : extraction_fails issues gathered existing (Text None)
  | ext_empty t :
      PyStr.strip t = "" ->
      extraction_fails issues gathered existing (Text (Some t))
  | ext_unparsable t :
      json_loads (PyStr.strip t) = None ->
      extraction_fails issues gathered existing (Text (Some t))
  | ext_wrong_shape t result e :
      json_loads (PyStr.strip t) = Some result ->
      merge_result issues gathered existing result = inl e ->
      extraction_fails issues gathered existing (Text (Some t)).

(** Modelled from the spec: the caller of [chat_with_founder], which is
    not part of the service module. It stores the returned gathered_info
    and unions the returned cannot-answer fields into the persisted
    ones. *)
Definition persist (d : interview_data) (res : turn_result) : interview_data :=
  {| company_name := company_name d;
     sector := sector d;
     founder_name := founder_name d;
     issues := issues d;
     gathered_info := tr_gathered_info res;
     cannot_answer_fields :=
       cannot_answer_fields d
       ++ filter (λ f, f ∉ cannot_answer_fields d) (tr_cannot_answer_fields res) |}.

(** One turn of a session: the state and the transcript after it. *)
Definition turn (service : prompt -> response) (user_message : string)
    (s : interview_data * list chat_msg) : interview_data * list chat_msg :=
  let res := run service (chat_with_founder json_loads s.1 user_message s.2) in
  (persist s.1 res,
   (s.2 ++ [ChatMsg "user" user_message;
            ChatMsg "assistant" (tr_message res)])%list).

(** A session: each turn has its message and the service as it behaves
    during that turn. *)
Fixpoint session (turns : list (string * (prompt -> response)))
    (s : interview_data * list chat_msg) : interview_data * list chat_msg :=
  match turns with
  | [] => s
  | (user_message, service) :: turns' =>
      session turns' (turn service user_message s)
  end.

End Observations.

(** ** Concrete data for the examples *)
Module Examples.

Definition quote : string := String (ascii_of_nat 34) EmptyString.

(** A string as a JSON string: quotes and backslashes are escaped. *)
Fixpoint escaped (s : string) : string :=
  match s with
  | EmptyString => EmptyString
  | String c s' =>
      if bool_decide (nat_of_ascii c = 34 ∨ nat_of_ascii c = 92)
      then String (ascii_of_nat 92) (String c (escaped s'))
      else String c (escaped s')
  end.

(** The JSON text of a value. *)
Fixpoint dumps (v : json) : string :=
  match v with
  | JNull => "null"
  | JBool true => "true"
  | JBool false => "false"
  | JNum n => pretty n
  | JStr s => quote ++ escaped s ++ quote
  | JList l =>
      "[" ++ (fix elems (l : list json) : string :=
                match l with
                | [] => ""
                | [x] => dumps x
                | x :: l' => dumps x ++ ", " ++ elems l'
                end) l ++ "]"
  | JDict d =>
      "{" ++ (fix members (d : list (string * json)) : string :=
                match d with
                | [] => ""
                | [(k, x)] => quote ++ escaped k ++ quote ++ ": " ++ dumps x
                | (k, x) :: d' =>
                    quote ++ escaped k ++ quote ++ ": " ++ dumps x
                    ++ ", " ++ members d'
                end) d ++ "}"
  end.

(** A [json.loads] that knows the text of one value. *)
Definition loads_of (v : json) (text : string) : option json :=
  if String.eqb text (dumps v) then Some v else None.

(** The service answering every prompt with the same response. *)
Definition always (r : response) : prompt -> response := fun _ => r.

(** The service answering every prompt with the text of [v]. *)
Definition answering (v : json) : prompt -> response :=
  always (Text (Some (dumps v))).

Definition revenue : issue :=
  Issue "revenue" "What is your annual revenue?" "financials" "1" "open".
Definition team_size : issue :=
  Issue "team_size" "Tell me about the size of your team." "team" "2" "open".
Definition catalog : list issue := [revenue; team_size].

Definition answer (value confidence : string) : json :=
  JDict [("value", JStr value); ("confidence", JStr confidence)].

(** A transcript with one earlier exchange. *)
Definition history : list chat_msg :=
  [ChatMsg "user" "Hi"; ChatMsg "assistant" "What is your annual revenue?"].

Definition fresh : interview_data :=
  InterviewData (Some "Acme") (Some "fintech") (Some "Ada") catalog ∅ [].

(** A transcript with two participant messages. *)
Definition history2 : list chat_msg :=
  history ++ [ChatMsg "user" "Around 2M, I think";
              ChatMsg "assistant" "Thanks! How big is your team?"].

(** A result proposing a revenue of 2M with high confidence. *)
Definition revenue_result : json :=
  JDict [("extracted", JDict [("revenue", answer "2M" "high")]);
         ("cannot_answer", JList [])].

(** A result with a vague revenue, a value for a field that is not in the
    catalog, and two declared cannot-answer fields, one of them outside
    the catalog. *)
Definition vague_result : json :=
  JDict [("extracted", JDict [("revenue", answer "some" "low");
                              ("burn_rate", answer "50k" "high")]);
         ("cannot_answer", JList [JStr "team_size"; JStr "valuation"])].

(** A gathered_info that already holds a revenue. *)
Definition answered_revenue : gmap string json :=
  {[ "revenue" := answer "1M" "medium" ]}.

(** A state in which the participant could not tell the revenue. *)
Definition revenue_unknown : interview_data :=
  InterviewData (Some "Acme") (Some "fintech") (Some "Ada") catalog ∅
    ["revenue"].

(** A state in which every catalog field has been attempted. *)
Definition finished : interview_data :=
  InterviewData (Some "Acme") (Some "fintech") (Some "Ada") catalog
    {[ "revenue" := answer "2M" "high" ]} ["team_size"].

End Examples.

Set Warnings "-abstract-large-number".

(** ** More of Python: slices, case, replace, dicts *)
Module Py.

(** [s[:n]] *)
Fixpoint str_take (n : nat) (s : string) : string :=
  match n, s with
  | S n', String c s' => String c (str_take n' s')
  | _, _ => EmptyString
  end.

(** [s[n:]] *)
Fixpoint str_drop (n : nat) (s : string) : string :=
  match n, s with
  | S n', String _ s' => str_drop n' s'
  | _, _ => s
  end.

(** [s[a:-b]] for a positive [b]: from index [a] up to [len(s) - b]. *)
Definition slice (a b : nat) (s : string) : string :=
  str_take (String.length s - b - a) (str_drop a s).

(** [s.startswith(p)] *)
Definition startswith (s p : string) : bool := String.prefix p s.

(** [c.lower()] on one code point (range 0..255): the letters A-Z and
    the capital letters of Latin-1. *)
Definition lower_char (c : ascii) : ascii :=
  let n := nat_of_ascii c in
  if ((65 <=? n)%nat && (n <=? 90)%nat)
     || ((192 <=? n)%nat && (n <=? 222)%nat && negb (n =? 215)%nat)
  then ascii_of_nat (n + 32) else c.

(** [s.lower()] *)
Fixpoint lower (s : string) : string :=
  match s with
  | EmptyString => EmptyString
  | String c s' => String (lower_char c) (lower s')
  end.

(** The scan of [s.replace(old, '')] for a non-empty [old]: [skip]
    characters of a match found earlier are still to be dropped. *)
Fixpoint remove_from (old : string) (skip : nat) (s : string) : string :=
  match s with
  | EmptyString => EmptyString
  | String c s' =>
      match skip with
      | S k => remove_from old k s'
      | O =>
          if String.prefix old s
          then remove_from old (String.length old - 1) s'
          else String c (remove_from old 0 s')
      end
  end.

(** [s.replace(old, '')] *)
Definition remove_all (old s : string) : string :=
  match old with
  | EmptyString => s
  | _ => remove_from old 0 s
  end.

(** [key in d] for the items of a dict. *)
Definition has_key (key : string) (d : list (string * json)) : bool :=
  match PyJson.lookup_items key d with Some _ => true | None => false end.

(** [del d[key]] *)
Fixpoint del_key (key : string) (d : list (string * json))
    : list (string * json) :=
  match d with
  | [] => []
  | (k, v) :: d' =>
      if String.eqb k key then del_key key d' else (k, v) :: del_key key d'
  end.

(** [d[key] = v]: a key that is present keeps its place. *)
Fixpoint set_key (key : string) (v : json) (d : list (string * json))
    : list (string * json) :=
  match d with
  | [] => [(key, v)]
  | (k, v') :: d' =>
      if String.eqb k key then (k, v) :: d' else (k, v') :: set_key key v d'
  end.

(** Exceptions met by the request handlers; [External] stands for a
    failure of the document store or of the file store. *)
Inductive error : Type :=
  | AttributeErr
  | TypeErr
  | KeyErr (key : string)
  | External (message : string).

(** [key in v]: membership in a dict, a list or a string. *)
Definition contains_key (v : json) (key : string) : error + bool :=
  match v with
  | JDict d => inr (has_key key d)
  | JList l =>
      inr (existsb (fun x => match x with
                             | JStr s => String.eqb s key
                             | _ => false
                             end) l)
  | JStr s => inr (PyStr.contains s key)
  | _ => inl TypeErr
  end.

(** [v[key]] for a string key. *)
Definition subscript (v : json) (key : string) : error + json :=
  match v with
  | JDict d =>
      match PyJson.lookup_items key d with
      | Some x => inr x
      | None => inl (KeyErr key)
      end
  | _ => inl TypeErr
  end.

(** [v == s] for a string [s]. *)
Definition eq_str (v : json) (s : string) : bool :=
  match v with
  | JStr s' => String.eqb s' s
  | _ => false
  end.

End Py.

(** [fastapi.HTTPException] *)
Inductive http_error : Type :=
  | HTTPException (status_code : nat) (detail : string).

(** ** Backend/services/document_ai.py *)
Module DocumentAI.

(** An entity of the processed document; the confidence is kept as it
    comes. *)
Record entity (C : Type) : Type := Entity {
  type_ : string;
  mention_text : string;
  confidence : C
}.
Arguments Entity {C} _ _ _.
Arguments type_ {C} _.
Arguments mention_text {C} _.
Arguments confidence {C} _.

(** [result.document] *)
Record document (Page C : Type) : Type := Document {
  text : string;
  pages : list Page;
  entities : list (entity C)
}.
Arguments Document {Page C} _ _ _.
Arguments text {Page C} _.
Arguments pages {Page C} _.
Arguments entities {Page C} _.

(** The dict returned by [extract_text_from_pdf]. *)
Record extracted_data (C : Type) : Type := ExtractedData {
  ed_text : string;
  ed_pages : nat;
  ed_entities : list (entity C)
}.
Arguments ExtractedData {C} _ _ _.
Arguments ed_text {C} _.
Arguments ed_pages {C} _.
Arguments ed_entities {C} _.

(** The [except] block of [extract_text_from_pdf], from [str(e)]. *)
Definition extraction_error (error_msg : string) : http_error :=
  if PyStr.contains error_msg "PAGE_LIMIT_EXCEEDED"
     || PyStr.contains (Py.lower error_msg) "pages exceed the limit"
  then HTTPException 400
         "Document exceeds 30-page limit for fast processing. Please use a smaller document or contact support for batch processing."
  else HTTPException 500 ("Failed to extract text: " ++ error_msg).

(** [extract_text_from_pdf], given what the upload and the processing
    do: each raises, with the text of its exception, or returns. *)
Definition extract_text_from_pdf {Page C : Type}
    (uploaded : string + string) (processed : string + document Page C)
    : http_error + extracted_data C :=
  match uploaded with
  | inl error_msg => inl (extraction_error error_msg)
  | inr gcs_uri =>
      match processed with
      | inl error_msg => inl (extraction_error error_msg)
      | inr doc =>
          inr {| ed_text := text doc;
                 ed_pages := length (pages doc);
                 ed_entities :=
                   (fun e => Entity (type_ e) (mention_text e) (confidence e))
                   <$> entities doc |}
      end
  end.

(** The metadata returned when anything fails. *)
Definition unknown_metadata : json :=
  JDict [("company_name", JStr "Unknown");
         ("founder_names", JList []);
         ("sector", JStr "Unknown")].

(** The removal of the code fences around the response text. *)
Definition strip_fences (response_text : string) : string :=
  if Py.startswith response_text "```json" then Py.slice 7 3 response_text
  else if Py.startswith response_text "```" then Py.slice 3 3 response_text
  else response_text.

Section Metadata.

Variable json_loads : string -> option json.

(** The body of the [try] block of [extract_metadata_from_text]. *)
Definition metadata_of_response (r : response) : exn + json :=
  match r with
  | Raises => inl ServiceFailure
  | NoText | Text None => inl AttributeError
  | Text (Some t) =>
      match json_loads (strip_fences (PyStr.strip t)) with
      | None => inl JSONDecodeError
      | Some metadata => inr metadata
      end
  end.

(** [extract_metadata_from_text]; the service is given the part of the
    text that the prompt carries. *)
Definition extract_metadata_from_text (service : string -> response)
    (text : string) : json :=
  match metadata_of_response (service (Py.str_take 10000 text)) with
  | inr metadata => metadata
  | inl _ => unknown_metadata
  end.

End Metadata.

End DocumentAI.

(** ** Backend/routers/deals.py

    A deal document is the dict [to_dict()] returns. What the document
    store and the file store do is given to each handler: a read raises
    or returns the document, if there is one. *)
Module Deals.

Import Py.

(** [StreamingResponse]: the content, the media type and the
    Content-Disposition header. *)
Record streaming_response : Type := StreamingResponse {
  content : list Byte.byte;
  media_type : string;
  content_disposition : string
}.

(** The dict returned by [get_all_deals]. *)
Record deal_list : Type := DealList {
  deals : list (list (string * json));
  count : nat;
  limit : Z;
  offset : Z
}.

(** [deal_data.get('metadata', {}).get('user_id') != current_user] *)
Definition not_owner (deal_data : list (string * json))
    (current_user : string) : error + bool :=
  match default (JDict []) (PyJson.lookup_items "metadata" deal_data) with
  | JDict metadata =>
      inr (negb (eq_str (default JNull (PyJson.lookup_items "user_id" metadata))
                   current_user))
  | _ => inl AttributeErr
  end.

(** [if not include_extracted_text and 'extracted_text' in deal_data:
    del deal_data['extracted_text']] *)
Definition drop_extracted_text (include_extracted_text : bool)
    (deal_data : list (string * json)) : list (string * json) :=
  if negb include_extracted_text && has_key "extracted_text" deal_data
  then del_key "extracted_text" deal_data
  else deal_data.

(** [key1 not in deal_data or key2 not in deal_data[key1]] *)
Definition lacks (deal_data : list (string * json)) (key1 key2 : string)
    : error + bool :=
  match PyJson.lookup_items key1 deal_data with
  | None => inr true
  | Some v =>
      match contains_key v key2 with
      | inl e => inl e
      | inr b => inr (negb b)
      end
  end.

(** [deal_data[key1][key2].replace(f"gs://{bucket}/", "")] *)
Definition gcs_path_of (bucket_name : string) (deal_data : list (string * json))
    (key1 key2 : string) : error + string :=
  match subscript (JDict deal_data) key1 with
  | inl e => inl e
  | inr v =>
      match subscript v key2 with
      | inl e => inl e
      | inr (JStr url) => inr (remove_all ("gs://" ++ bucket_name ++ "/") url)
      | inr _ => inl AttributeErr
      end
  end.

(** The memo [regenerate_memo] stores: a copy of the existing memo with
    the two recalculated sections and the weightage used. *)
Definition updated_memo (existing_memo recalculated weightage : json)
    : error + list (string * json) :=
  match existing_memo with
  | JDict memo =>
      match subscript recalculated "risk_metrics" with
      | inl e => inl e
      | inr risk_metrics =>
          let memo1 := set_key "risk_metrics" risk_metrics memo in
          match subscript recalculated "conclusion" with
          | inl e => inl e
          | inr conclusion =>
              inr (set_key "_weightage_used" weightage
                     (set_key "conclusion" conclusion memo1))
          end
      end
  | JList _ =>
      match subscript recalculated "risk_metrics" with
      | inl e => inl e
      | inr _ => inl TypeErr
      end
  | _ => inl AttributeErr
  end.

Section Handlers.

(** [str(e)] *)
Variable str : error -> string.

(** [f"{v}"] for a value that is not a string. *)
Variable format : json -> string.

(** [settings.GCS_BUCKET_NAME] *)
Variable bucket_name : string.

(** [f"{company_name}"] *)
Definition formatted (v : json) : string :=
  match v with
  | JStr s => s
  | _ => format v
  end.

(** [deal_data['metadata'].get('company_name', 'Unknown')] *)
Definition company_name_of (deal_data : list (string * json)) : error + json :=
  match subscript (JDict deal_data) "metadata" with
  | inl e => inl e
  | inr (JDict metadata) =>
      inr (default (JStr "Unknown") (PyJson.lookup_items "company_name" metadata))
  | inr _ => inl AttributeErr
  end.

Definition get_deal (fetched : error + option (list (string * json)))
    (include_extracted_text : bool) (current_user : string)
    : http_error + list (string * json) :=
  match fetched with
  | inl e => inl (HTTPException 500 (str e))
  | inr None => inl (HTTPException 404 "Deal not found")
  | inr (Some deal_data) =>
      match not_owner deal_data current_user with
      | inl e => inl (HTTPException 500 (str e))
      | inr true => inl (HTTPException 403 "Access denied")
      | inr false => inr (drop_extracted_text include_extracted_text deal_data)
      end
  end.

(** [get_all_deals], given what the query streams: the documents with
    their ids. *)
Definition get_all_deals (streamed : error + list (string * list (string * json)))
    (limit offset : Z) (include_extracted_text : bool)
    : http_error + deal_list :=
  match streamed with
  | inl e => inl (HTTPException 500 (str e))
  | inr docs =>
      let deals :=
        (fun doc => drop_extracted_text include_extracted_text
                      (set_key "id" (JStr doc.1) doc.2)) <$> docs in
      inr {| deals := deals; count := length deals;
             limit := limit; offset := offset |}
  end.

(** The two downloads share their last steps: fetch the file, name it. *)
Definition serve (download : string -> error + list Byte.byte)
    (deal_data : list (string * json)) (deal_id key1 key2 : string)
    (label extension media : string) : http_error + streaming_response :=
  match gcs_path_of bucket_name deal_data key1 key2 with
  | inl e => inl (HTTPException 500 (str e))
  | inr gcs_path =>
      match download gcs_path with
      | inl e => inl (HTTPException 500 (str e))
      | inr file_content =>
          match company_name_of deal_data with
          | inl e => inl (HTTPException 500 (str e))
          | inr company_name =>
              let filename :=
                formatted company_name ++ label ++ deal_id ++ extension in
              inr {| content := file_content;
                     media_type := media;
                     content_disposition := "attachment; filename=" ++ filename |}
          end
      end
  end.

Definition download_memo (fetched : error + option (list (string * json)))
    (download : string -> error + list Byte.byte)
    (deal_id current_user : string) : http_error + streaming_response :=
  match fetched with
  | inl e => inl (HTTPException 500 (str e))
  | inr None => inl (HTTPException 404 "Deal not found")
  | inr (Some deal_data) =>
      match not_owner deal_data current_user with
      | inl e => inl (HTTPException 500 (str e))
      | inr true => inl (HTTPException 403 "Access denied")
      | inr false =>
          match lacks deal_data "memo" "docx_url" with
          | inl e => inl (HTTPException 500 (str e))
          | inr true => inl (HTTPException 404 "Memo not yet generated")
          | inr false =>
              serve download deal_data deal_id "memo" "docx_url"
                "_Investment_Memo_" ".docx"
                "application/vnd.openxmlformats-officedocument.wordprocessingml.document"
          end
      end
  end.

Definition download_pitch_deck (fetched : error + option (list (string * json)))
    (download : string -> error + list Byte.byte)
    (deal_id : string) : http_error + streaming_response :=
  match fetched with
  | inl e => inl (HTTPException 500 (str e))
  | inr None => inl (HTTPException 404 "Deal not found")
  | inr (Some deal_data) =>
      match lacks deal_data "raw_files" "pitch_deck_url" with
      | inl e => inl (HTTPException 500 (str e))
      | inr true => inl (HTTPException 404 "Pitch deck not found")
      | inr false =>
          serve download deal_data deal_id "raw_files" "pitch_deck_url"
            "_Pitch_Deck_" ".pdf" "application/pdf"
      end
  end.

(** The file store, and [bucket.blob(path).delete()] on it: the outcome
    and the store afterwards. *)
Variable Store : Type.
Variable delete_blob : string -> Store -> (error + unit) * Store.

(** The [try] block that deletes the two files of a deal: the first
    exception ends it. *)
Definition delete_files (deal_data : list (string * json)) (files : Store)
    : (error + unit) * Store :=
  let after_pitch_deck :=
    match lacks deal_data "raw_files" "pitch_deck_url" with
    | inl e => (inl e, files)
    | inr true => (inr tt, files)
    | inr false =>
        match gcs_path_of bucket_name deal_data "raw_files" "pitch_deck_url" with
        | inl e => (inl e, files)
        | inr gcs_path => delete_blob gcs_path files
        end
    end in
  match after_pitch_deck with
  | (inl e, files') => (inl e, files')
  | (inr _, files') =>
      match lacks deal_data "memo" "docx_url" with
      | inl e => (inl e, files')
      | inr true => (inr tt, files')
      | inr false =>
          match gcs_path_of bucket_name deal_data "memo" "docx_url" with
          | inl e => (inl e, files')
          | inr gcs_path => delete_blob gcs_path files'
          end
      end
  end.

(** [delete_deal] on the collection of deals and the file store: the
    outcome, the collection and the file store afterwards. [read_fails]
    and [delete_fails] are the failures of the document store, if any. *)
Definition delete_deal (db : gmap string (list (string * json)))
    (files : Store) (read_fails delete_fails : option error)
    (deal_id current_user : string)
    : (http_error + list (string * json))
      * gmap string (list (string * json)) * Store :=
  match read_fails with
  | Some e => (inl (HTTPException 500 (str e)), db, files)
  | None =>
      match db !! deal_id with
      | None => (inl (HTTPException 404 "Deal not found"), db, files)
      | Some deal_data =>
          match not_owner deal_data current_user with
          | inl e => (inl (HTTPException 500 (str e)), db, files)
          | inr true => (inl (HTTPException 403 "Access denied"), db, files)
          | inr false =>
              let files' := (delete_files deal_data files).2 in
              match delete_fails with
              | Some e => (inl (HTTPException 500 (str e)), db, files')
              | None =>
                  (inr [("message", JStr "Deal deleted successfully");
                        ("deal_id", JStr deal_id)],
                   delete deal_id db, files')
              end
          end
      end
  end.

End Handlers.

End Deals.

(** ** Concrete data for the document and deal services *)
Module MoreExamples.

(** The metadata of a pitch deck. *)
Definition acme : json :=
  JDict [("company_name", JStr "Acme");
         ("founder_names", JList [JStr "Ada"]);
         ("sector", JStr "fintech")].

(** The service answering every prompt with the text [t]. *)
Definition replying (t : string) : string -> response :=
  fun _ => Text (Some t).

(** A deal of the user alice, with its files. *)
Definition deal : list (string * json) :=
  [("raw_files", JDict [("pitch_deck_url",
                         JStr "gs://decks/deals/d1/pitch_deck.pdf")]);
   ("metadata", JDict [("user_id", JStr "alice");
                       ("company_name", JStr "Acme")]);
   ("extracted_text", JDict [("pitch_deck", JDict [("text", JStr "...")])]);
   ("memo", JDict [("docx_url", JStr "gs://decks/deals/d1/memo.docx")])].

(** [str(e)]: the message of a failure of a store; the messages of the
    interpreter's own exceptions are not needed in the examples. *)
Definition message_of (e : Py.error) : string :=
  match e with
  | Py.External message => message
  | Py.KeyErr key => key
  | Py.AttributeErr => "AttributeError"
  | Py.TypeErr => "TypeError"
  end.

(** A file store as the list of its paths; deleting a path that is not
    there fails. *)
Definition delete_from (path : string) (files : list string)
    : (Py.error + unit) * list string :=
  if bool_decide (path ∈ files)
  then (inr tt, filter (λ p, p ≠ path) files)
  else (inl (Py.External "404 No such object"), files).

End MoreExamples.

(** * Properties *)

(** ** Facts about the string operations *)
Module PyStrFacts.
Import PyStr.

Lemma endswith_char (s : string) (c : ascii) :
  endswith s (String c EmptyString)
  = match last_char s with Some x => Ascii.eqb x c | None => false end.
Proof.
  induction s as [|a s IH]; [reflexivity|].
  cbn [endswith last_char]. rewrite IH. clear IH.
  destruct s as [|b s].
  - cbn. destruct (Ascii.eqb a c); reflexivity.
  - cbn. destruct (Ascii.eqb a c); reflexivity.
Qed.

End PyStrFacts.


(** ** Running the computations *)

Lemma run_bind {A B} (service : prompt -> response) (m : svc A) (f : A -> svc B) :
  run service (m ≫= f) = run service (f (run service m)).
Proof.
  induction m as [a|p k IH]; [reflexivity|].
  cbn. apply IH.
Qed.

Lemma asked_bind {A B} (service : prompt -> response) (m : svc A) (f : A -> svc B) :
  asked service (m ≫= f)
  = (asked service m ++ asked service (f (run service m)))%list.
Proof.
  induction m as [a|p k IH]; [reflexivity|].
  cbn. f_equal. apply IH.
Qed.

Section EngineFacts.

Variable json_loads : string -> option json.

Lemma analyze_and_extract_run service issues gathered existing chat_history :
  run service (analyze_and_extract json_loads issues gathered existing chat_history)
  = if bool_decide (length (user_messages chat_history) < 2)%nat
    then unchanged gathered (field <$> issues)
    else match extract_of_response json_loads issues gathered existing
                 (service (analysis_prompt issues gathered chat_history)) with
         | inr e => e
         | inl _ => unchanged gathered (field <$> fields_needed issues gathered)
         end.
Proof. unfold analyze_and_extract. case_bool_decide; reflexivity. Qed.

Lemma chat_with_founder_run service d user_message chat_history :
  let ai_message := reply d (service (reply_prompt d user_message chat_history)) in
  let e := run service
             (analyze_and_extract json_loads (issues d) (gathered_info d)
                (cannot_answer_fields d)
                (chat_history ++ [ChatMsg "user" user_message;
                                  ChatMsg "assistant" ai_message])) in
  run service (chat_with_founder json_loads d user_message chat_history)
  = {| tr_message := ai_message;
       tr_is_complete := ex_is_complete e;
       tr_gathered_info := ex_gathered_info e;
       tr_cannot_answer_fields := ex_cannot_answer_fields e |}.
Proof.
  cbv zeta. unfold chat_with_founder. cbn [run].
  rewrite run_bind. reflexivity.
Qed.

(** A successful extraction, in terms of what the response carries. *)
Lemma extract_of_response_success issues gathered existing r e :
  extract_of_response json_loads issues gathered existing r = inr e ->
  exists merged,
    merge_extracted (all_issue_fields issues) (proposals json_loads r) gathered
      = inr merged
    /\ e = {| ex_is_complete :=
               completion (all_issue_fields issues) merged existing
                 (catalog_matches (all_issue_fields issues) (declared json_loads r));
             ex_gathered_info := merged;
             ex_still_pending :=
               filter (λ f, (f ∉ keys merged) ∧ (f ∉ existing))
                 (all_issue_fields issues);
             ex_cannot_answer_fields :=
               catalog_matches (all_issue_fields issues) (declared json_loads r) |}.
Proof.
  unfold extract_of_response, proposals, declared, parsed.
  destruct r as [| |[t|]]; try discriminate.
  destruct (PyStr.truthy (PyStr.strip t)); cbn [negb]; [|discriminate].
  destruct (json_loads (PyStr.strip t)) as [result|]; [|discriminate].
  unfold merge_result, mbind, exn_mbind.
  destruct result as [| | | | |d]; try discriminate.
  cbn [PyJson.get exn_bind].
  destruct (default (JDict []) (PyJson.lookup_items "extracted" d))
    as [| | | | |its]; try discriminate.
  cbn [PyJson.items exn_bind].
  destruct (merge_extracted (all_issue_fields issues) its gathered)
    as [err|merged]; [discriminate|].
  cbn [exn_bind].
  destruct (PyJson.iter (default (JList []) (PyJson.lookup_items "cannot_answer" d)))
    as [err|l]; [discriminate|].
  cbn [exn_bind]. intros [= <-]. exists merged. split; reflexivity.
Qed.

End EngineFacts.

(** ** The merge loop *)
Section MergeFacts.

Variable fields : list string.

Lemma merge_extracted_skip f data rest merged :
  f ∉ fields ∨ (∃ d, data = JDict d ∧ PyJson.confidence_accepted d = false) ->
  merge_extracted fields ((f, data) :: rest) merged
  = merge_extracted fields rest merged.
Proof.
  intros [Hf|(d & -> & Hd)]; cbn [merge_extracted].
  - rewrite bool_decide_eq_false_2 by done. reflexivity.
  - rewrite Hd. case_bool_decide; reflexivity.
Qed.

Lemma merge_extracted_keeps_keys its : forall merged merged',
  merge_extracted fields its merged = inr merged' ->
  forall k, is_Some (merged !! k) -> is_Some (merged' !! k).
Proof.
  induction its as [|[f data] rest IH]; intros merged merged' Hm k Hk.
  - injection Hm as <-. exact Hk.
  - cbn [merge_extracted] in Hm. case_bool_decide.
    + destruct data as [| | | | |d]; try discriminate.
      destruct (PyJson.confidence_accepted d); [|by eapply IH].
      eapply IH; [exact Hm|]. rewrite lookup_insert_is_Some. 
      destruct (decide (f = k)); auto.
    + by eapply IH.
Qed.

Lemma merge_extracted_origin its : forall merged merged',
  merge_extracted fields its merged = inr merged' ->
  forall k v, merged' !! k = Some v ->
    merged !! k = Some v ∨ (accepted fields k v ∧ (k, v) ∈ its).
Proof.
  induction its as [|[f data] rest IH]; intros merged merged' Hm k v Hk.
  - injection Hm as <-. by left.
  - cbn [merge_extracted] in Hm. case_bool_decide as Hf.
    + destruct data as [| | | | |d]; try discriminate.
      destruct (PyJson.confidence_accepted d) eqn:Hd.
      * destruct (IH _ _ Hm k v Hk) as [Hin|[Ha Hin]].
        -- destruct (decide (f = k)) as [->|Hne].
           ++ rewrite lookup_insert_eq in Hin. injection Hin as <-.
              right. split; [|by left]. split; [done|]. by exists d.
           ++ rewrite lookup_insert_ne in Hin by done. by left.
        -- right. split; [done|]. by right.
      * destruct (IH _ _ Hm k v Hk) as [Hin|[Ha Hin]]; [by left|].
        right. split; [done|]. by right.
    + destruct (IH _ _ Hm k v Hk) as [Hin|[Ha Hin]]; [by left|].
      right. split; [done|]. by right.
Qed.

Lemma merge_extracted_kept its merged merged' k :
  merge_extracted fields its merged = inr merged' ->
  (forall v, (k, v) ∈ its -> ¬ accepted fields k v) ->
  merged' !! k = merged !! k.
Proof.
  revert merged merged'.
  induction its as [|[f data] rest IH]; intros merged merged' Hm Hno.
  - by injection Hm as <-.
  - assert (Hrest : ∀ v, (k, v) ∈ rest → ¬ accepted fields k v).
    { intros v Hv. apply Hno. by right. }
    cbn [merge_extracted] in Hm. case_bool_decide as Hf; [|by apply IH].
    destruct data as [| | | | |d]; try discriminate.
    destruct (PyJson.confidence_accepted d) eqn:Hd; [|by apply IH].
    rewrite (IH _ _ Hm Hrest).
    destruct (decide (f = k)) as [->|Hne]; [|by rewrite lookup_insert_ne].
    exfalso. apply (Hno (JDict d)); [by left|]. split; [done|]. by exists d.
Qed.

End MergeFacts.

(** ** Mode selection and reply composition *)

Lemma filter_ext_in {A} (P Q : A -> Prop) `{∀ x, Decision (P x)}
    `{∀ x, Decision (Q x)} (l : list A) :
  (forall x, x ∈ l -> (P x <-> Q x)) -> filter P l = filter Q l.
Proof.
  induction l as [|a l IH]; intros Hext; [reflexivity|].
  rewrite !filter_cons.
  rewrite IH by (intros x Hx; apply Hext; by right).
  destruct (decide (P a)) as [HP|HP], (decide (Q a)) as [HQ|HQ];
    try reflexivity; exfalso.
  - apply HQ, (Hext a); [by left|done].
  - apply HP, (Hext a); [by left|done].
Qed.

Lemma elem_of_keys (m : gmap string json) (k : string) :
  k ∈ keys m <-> is_Some (m !! k).
Proof.
  unfold keys. rewrite list_elem_of_fmap. split.
  - intros ([k' v] & -> & Hin). apply elem_of_map_to_list in Hin. by exists v.
  - intros [v Hv]. exists (k, v). split; [done|]. by apply elem_of_map_to_list.
Qed.

(** The issues selected by the code are the catalog issues outside both
    collections. *)
Lemma still_needed_eq_spec (d : interview_data) :
  still_needed d = still_needed_spec d.
Proof.
  unfold still_needed, still_needed_spec. apply filter_ext_in.
  intros i Hi. unfold gathered_issue_fields.
  rewrite list_elem_of_filter, elem_of_keys.
  assert (field i ∈ all_issue_fields (issues d)).
  { unfold all_issue_fields. apply list_elem_of_fmap. by exists i. }
  tauto.
Qed.

Lemma will_be_closing_true (d : interview_data) :
  will_be_closing d = true <-> still_needed_spec d = [].
Proof.
  unfold will_be_closing. rewrite bool_decide_eq_true, still_needed_eq_spec.
  destruct (still_needed_spec d); cbn; split; intros; try done; lia.
Qed.

Lemma will_be_closing_false (d : interview_data) :
  will_be_closing d = false <-> still_needed_spec d ≠ [].
Proof.
  rewrite <- will_be_closing_true. destruct (will_be_closing d); split; congruence.
Qed.

Lemma enforce_question_mark_spec (m : string) :
  enforce_question_mark m = question_mark_spec m.
Proof.
  unfold enforce_question_mark, question_mark_spec. cbn [existsb].
  rewrite !PyStrFacts.endswith_char.
  destruct (PyStr.last_char m) as [c|]; [|reflexivity].
  destruct (Ascii.eqb_spec c "?") as [->|Hq]; [reflexivity|].
  destruct (Ascii.eqb_spec c ".") as [->|Hd].
  { cbn. destruct (PyStr.contains m "?"); reflexivity. }
  destruct (Ascii.eqb_spec c "!") as [->|Hb]; [reflexivity|].
  cbn.
  destruct c as [[] [] [] [] [] [] [] []]; try reflexivity; congruence.
Qed.

Lemma strip_truthy (t : string) :
  PyStr.truthy (PyStr.strip t) = true <-> PyStr.strip t ≠ "".
Proof. destruct (PyStr.strip t); cbn; split; congruence. Qed.

Lemma generation_fails_raises closing r :
  generation_fails r -> exists e, reply_of_response closing r = inl e.
Proof.
  intros [ | | |t Ht]; cbn; eauto. rewrite Ht. cbn. eauto.
Qed.

Lemma reply_fallback d r : generation_fails r -> reply d r = fallback_reply d.
Proof.
  intros Hr. unfold reply.
  destruct (generation_fails_raises (will_be_closing d) r Hr) as [e ->].
  reflexivity.
Qed.

Lemma fallback_reply_truthy d : PyStr.truthy (fallback_reply d) = true.
Proof. unfold fallback_reply. destruct (will_be_closing d); reflexivity. Qed.

(** C7. In continuation mode the text returned by the reasoning service
    (stripped, non-empty) is post-processed as follows: when it does not
    end in "?" and ends in "." with no "?" anywhere, the trailing "." is
    replaced by "?"; when it ends in neither ".", "!" nor "?", a "?" is
    appended; text ending in "!", text ending in "." that contains a "?",
    and text ending in "?" are returned unmodified. *)
Theorem reply_question_mark_rule (d : interview_data) (t : string) :
  will_be_closing d = false ->
  PyStr.truthy (PyStr.strip t) = true ->
  let m := PyStr.strip t in
  let out := reply d (Text (Some t)) in
  (PyStr.endswith m "?" = false -> PyStr.endswith m "." = true ->
   PyStr.contains m "?" = false -> out = PyStr.drop_last m ++ "?")
  /\ (PyStr.endswith m "." = false -> PyStr.endswith m "!" = false ->
      PyStr.endswith m "?" = false -> out = m ++ "?")
  /\ (PyStr.endswith m "!" = true -> out = m)
  /\ (PyStr.endswith m "." = true -> PyStr.contains m "?" = true -> out = m)
  /\ (PyStr.endswith m "?" = true -> out = m).
Proof.
  intros Hc Ht. cbv zeta. unfold reply, reply_of_response.
  rewrite Hc. cbv zeta. set (m := PyStr.strip t) in *. rewrite Ht. cbn [negb].
  unfold enforce_question_mark. cbn [existsb].
  rewrite !PyStrFacts.endswith_char.
  destruct (PyStr.last_char m) as [c|].
  - destruct (Ascii.eqb_spec c "?") as [E0|Hq];
      destruct (Ascii.eqb_spec c ".") as [E1|Hd];
      destruct (Ascii.eqb_spec c "!") as [E2|Hb];
      try discriminate; try (subst c; discriminate); cbn;
      repeat split; intros; try discriminate; try reflexivity;
      try (destruct (PyStr.contains m "?"); first [discriminate | reflexivity]).
  - cbn. repeat split; intros; try discriminate; reflexivity.
Qed.

Lemma reply_question_mark_rule_witness :
  will_be_closing Examples.fresh = false
  /\ PyStr.truthy (PyStr.strip " Thanks, that helps. Tell me about your team. ") = true
  /\ reply Examples.fresh (Text (Some " Thanks, that helps. Tell me about your team. "))
     = "Thanks, that helps. Tell me about your team?".
Proof.
  split; [vm_compute; reflexivity|]. split; [vm_compute; reflexivity|].
  apply (reply_question_mark_rule Examples.fresh
           " Thanks, that helps. Tell me about your team. ");
    vm_compute; reflexivity.
Defined.

(** C4. With fewer than 2 messages of role 'user' in the transcript,
    [analyze_and_extract] returns at once, without asking the reasoning
    service: the gathered_info it was given, is_complete = false and no
    new cannot-answer field. *)
Theorem first_turn_skips_extraction (json_loads : string -> option json)
    (issues : list issue) (gathered : gmap string json)
    (existing : list string) (chat_history : list chat_msg) :
  (length (filter (λ msg, role msg = "user") chat_history) < 2)%nat ->
  analyze_and_extract json_loads issues gathered existing chat_history
  = Ret {| ex_is_complete := false;
           ex_gathered_info := gathered;
           ex_still_pending := field <$> issues;
           ex_cannot_answer_fields := [] |}
  /\ forall service,
       asked service
         (analyze_and_extract json_loads issues gathered existing chat_history)
       = [].
Proof.
  intros Hlt. unfold analyze_and_extract, user_messages.
  rewrite bool_decide_eq_true_2 by exact Hlt. split; reflexivity.
Qed.

Lemma first_turn_skips_extraction_witness :
  (length (filter (λ msg, role msg = "user") Examples.history) < 2)%nat
  /\ analyze_and_extract (Examples.loads_of JNull) Examples.catalog ∅ []
       Examples.history
     = Ret {| ex_is_complete := false;
              ex_gathered_info := ∅;
              ex_still_pending := ["revenue"; "team_size"];
              ex_cannot_answer_fields := [] |}.
Proof.
  split; [vm_compute; lia|].
  apply (first_turn_skips_extraction (Examples.loads_of JNull) Examples.catalog
           ∅ [] Examples.history).
  vm_compute; lia.
Defined.

(** C8. The first prompt of a turn is the reply prompt. When no catalog
    field is outside both gathered_info and cannot_answer_fields, it is
    the closing prompt, and the reply is the text of the service as it
    is, with no question-mark rule, or the closing template when the
    service fails; otherwise it is the continuation prompt and the
    question-mark rule is applied to the text of the service. *)
Theorem closing_trigger (json_loads : string -> option json)
    (service : prompt -> response) (d : interview_data)
    (user_message : string) (chat_history : list chat_msg) :
  let m := chat_with_founder json_loads d user_message chat_history in
  let p := reply_prompt d user_message chat_history in
  head (asked service m) = Some p
  /\ (still_needed_spec d = [] ->
      prompt_mode p = Some Closing
      /\ (forall t, service p = Text (Some t) -> PyStr.strip t ≠ "" ->
            tr_message (run service m) = PyStr.strip t)
      /\ (generation_fails (service p) ->
            tr_message (run service m)
            = "Thank you so much for your time, " ++ the_founder d
              ++ "! We've gathered excellent insights about " ++ the_company d
              ++ ". I'll update our investment memo and get back to you within 2-3 weeks with our feedback. Best of luck with everything!"))
  /\ (still_needed_spec d ≠ [] ->
      prompt_mode p = Some Continuation
      /\ forall t, service p = Text (Some t) -> PyStr.strip t ≠ "" ->
           tr_message (run service m) = enforce_question_mark (PyStr.strip t)).
Proof.
  cbv zeta. split; [reflexivity|].
  rewrite chat_with_founder_run. cbn [tr_message].
  unfold reply_prompt, reply.
  split; intros Hs.
  - apply will_be_closing_true in Hs. rewrite Hs. split; [reflexivity|]. split.
    + intros t -> Ht. apply strip_truthy in Ht.
      unfold reply_of_response. rewrite Ht. reflexivity.
    + intros Hf. destruct (generation_fails_raises true _ Hf) as [e ->].
      unfold fallback_reply. rewrite Hs. reflexivity.
  - apply will_be_closing_false in Hs. rewrite Hs. split; [reflexivity|].
    intros t -> Ht. apply strip_truthy in Ht.
    unfold reply_of_response. rewrite Ht. reflexivity.
Qed.

Lemma closing_trigger_witness :
  still_needed_spec Examples.finished = []
  /\ tr_message
       (run (Examples.always (Text (Some "Thank you, Ada. We will be in touch.")))
          (chat_with_founder (Examples.loads_of JNull) Examples.finished
             "That is all I know" Examples.history))
     = "Thank you, Ada. We will be in touch.".
Proof.
  split; [vm_compute; reflexivity|].
  destruct (closing_trigger (Examples.loads_of JNull)
              (Examples.always (Text (Some "Thank you, Ada. We will be in touch.")))
              Examples.finished "That is all I know" Examples.history)
    as (_ & Hclosing & _).
  destruct Hclosing as (_ & Hreply & _); [vm_compute; reflexivity|].
  apply (Hreply "Thank you, Ada. We will be in touch.");
    [reflexivity | vm_compute; discriminate].
Defined.

(** C10. When reply generation fails in continuation mode, the reply is
    'Thanks for sharing! ' followed by the question of the first
    still-needed issue as it is written in the catalog (or by a generic
    prompt if there were none). The question-mark rule is not applied
    to it: there is a turn whose fallback reply does not end in "?",
    and which the rule would have changed. *)
Theorem continuation_fallback_reply :
  (forall (json_loads : string -> option json) (service : prompt -> response)
          (d : interview_data) (user_message : string)
          (chat_history : list chat_msg),
     will_be_closing d = false ->
     generation_fails (service (reply_prompt d user_message chat_history)) ->
     tr_message (run service
                   (chat_with_founder json_loads d user_message chat_history))
     = "Thanks for sharing! "
       ++ default "What else can you tell me?"
            (question <$> head (still_needed_spec d)))
  /\ (exists (service : prompt -> response) (d : interview_data)
             (user_message : string) (chat_history : list chat_msg),
        let m := tr_message
                   (run service
                      (chat_with_founder (Examples.loads_of JNull) d
                         user_message chat_history)) in
        will_be_closing d = false
        /\ generation_fails (service (reply_prompt d user_message chat_history))
        /\ PyStr.endswith m "?" = false
        /\ enforce_question_mark m ≠ m).
Proof.
  split.
  - intros json_loads service d user_message chat_history Hc Hf.
    rewrite chat_with_founder_run. cbn [tr_message].
    rewrite (reply_fallback _ _ Hf). unfold fallback_reply. rewrite Hc.
    rewrite still_needed_eq_spec.
    destruct (still_needed_spec d); reflexivity.
  - exists (Examples.always Raises),
      (InterviewData None None None Examples.catalog
         {[ "revenue" := Examples.answer "2M" "high" ]} []),
      "We made 2M last year", Examples.history.
    cbv zeta. split; [vm_compute; reflexivity|].
    split; [constructor|].
    split; [vm_compute; reflexivity|]. vm_compute. discriminate.
Qed.

Lemma continuation_fallback_reply_witness :
  will_be_closing Examples.fresh = false
  /\ tr_message
       (run (Examples.always NoText)
          (chat_with_founder (Examples.loads_of JNull) Examples.fresh
             "Hello" []))
     = "Thanks for sharing! What is your annual revenue?".
Proof.
  split; [vm_compute; reflexivity|].
  apply (proj1 continuation_fallback_reply (Examples.loads_of JNull)
           (Examples.always NoText) Examples.fresh "Hello" []).
  - vm_compute; reflexivity.
  - constructor.
Defined.

(** ** Failure of the reasoning service *)

Lemma extraction_fails_raises json_loads issues gathered existing r :
  extraction_fails json_loads issues gathered existing r ->
  exists e, extract_of_response json_loads issues gathered existing r = inl e.
Proof.
  intros [ | | |t Ht|t Ht|t result e Ht He]; cbn; eauto.
  - rewrite Ht. cbn. eauto.
  - destruct (PyStr.truthy (PyStr.strip t)); cbn; [|eauto].
    rewrite Ht. eauto.
  - destruct (PyStr.truthy (PyStr.strip t)); cbn; [|eauto].
    rewrite Ht, He. eauto.
Qed.

(** A result that is not a dict has the wrong shape. *)
Lemma merge_result_not_dict issues gathered existing result :
  (forall d, result ≠ JDict d) ->
  merge_result issues gathered existing result = inl AttributeError.
Proof.
  intros Hd. destruct result; try reflexivity. by destruct (Hd d).
Qed.

Lemma persist_unchanged d (res : turn_result) :
  tr_gathered_info res = gathered_info d ->
  tr_cannot_answer_fields res = [] ->
  persist d res = d.
Proof.
  intros Hg Hc. unfold persist. rewrite Hg, Hc.
  rewrite filter_nil, app_nil_r. by destruct d.
Qed.

(** C2. When the reasoning service fails both for the reply and for the
    extraction of a turn, the turn still returns a result: its reply is
    the fallback reply, which is not empty and depends on the state
    only; the gathered_info returned is the one given, no cannot-answer
    field is returned and is_complete is false, so that the persisted
    state is exactly what it was. *)
Theorem fallback_guarantee (json_loads : string -> option json)
    (service : prompt -> response) (d : interview_data)
    (user_message : string) (chat_history : list chat_msg) :
  generation_fails (service (reply_prompt d user_message chat_history)) ->
  extraction_fails json_loads (issues d) (gathered_info d)
    (cannot_answer_fields d)
    (service (analysis_prompt (issues d) (gathered_info d)
                (chat_history ++ [ChatMsg "user" user_message;
                                  ChatMsg "assistant" (fallback_reply d)]))) ->
  let res := run service
               (chat_with_founder json_loads d user_message chat_history) in
  tr_message res = fallback_reply d
  /\ tr_message res ≠ ""
  /\ tr_gathered_info res = gathered_info d
  /\ tr_cannot_answer_fields res = []
  /\ tr_is_complete res = false
  /\ persist d res = d.
Proof.
  intros Hgen Hext. cbv zeta.
  rewrite chat_with_founder_run.
  rewrite (reply_fallback _ _ Hgen).
  rewrite analyze_and_extract_run.
  destruct (extraction_fails_raises _ _ _ _ _ Hext) as [e ->].
  assert (Hne : fallback_reply d ≠ "").
  { pose proof (fallback_reply_truthy d) as Ht.
    destruct (fallback_reply d); [discriminate|congruence]. }
  case_bool_decide; cbn;
    (repeat split; try done; apply persist_unchanged; reflexivity).
Qed.

Lemma fallback_guarantee_witness :
  let res := run (Examples.always Raises)
               (chat_with_founder (Examples.loads_of JNull) Examples.fresh
                  "We made 2M last year" Examples.history) in
  generation_fails (Examples.always Raises
                      (reply_prompt Examples.fresh "We made 2M last year"
                         Examples.history))
  /\ tr_message res = "Thanks for sharing! What is your annual revenue?"
  /\ persist Examples.fresh res = Examples.fresh.
Proof.
  cbv zeta. split; [constructor|].
  destruct (fallback_guarantee (Examples.loads_of JNull) (Examples.always Raises)
              Examples.fresh "We made 2M last year" Examples.history)
    as (Hm & _ & _ & _ & _ & Hp); [constructor | constructor |].
  split; [exact Hm | exact Hp].
Defined.

(** ** The extraction merge *)

Section ExtractionFacts.

Variable json_loads : string -> option json.

(** The result of [analyze_and_extract]: the input state, or the merge
    of what the response carries. *)
Lemma analyze_and_extract_cases service issues gathered existing chat_history :
  let r := service (analysis_prompt issues gathered chat_history) in
  let e := run service
             (analyze_and_extract json_loads issues gathered existing chat_history) in
  (ex_gathered_info e = gathered ∧ ex_cannot_answer_fields e = []
   ∧ ex_is_complete e = false)
  ∨ (exists merged,
       merge_extracted (all_issue_fields issues) (proposals json_loads r) gathered
         = inr merged
       ∧ ex_gathered_info e = merged
       ∧ ex_cannot_answer_fields e
         = catalog_matches (all_issue_fields issues) (declared json_loads r)
       ∧ ex_is_complete e
         = completion (all_issue_fields issues) merged existing
             (catalog_matches (all_issue_fields issues) (declared json_loads r))).
Proof.
  cbv zeta. rewrite analyze_and_extract_run.
  case_bool_decide; [by left|].
  destruct (extract_of_response json_loads issues gathered existing _)
    as [err|e] eqn:He; [by left|].
  apply extract_of_response_success in He as (merged & Hm & ->).
  right. by exists merged.
Qed.

Lemma confidence_accepted_iff d :
  PyJson.confidence_accepted d = true
  <-> PyJson.lookup_items "confidence" d = Some (JStr "high")
      ∨ PyJson.lookup_items "confidence" d = Some (JStr "medium").
Proof.
  unfold PyJson.confidence_accepted.
  destruct (PyJson.lookup_items "confidence" d) as [[| | |s| |]|]; cbn;
    try (split; [discriminate | intros [|]; discriminate]).
  rewrite bool_decide_eq_true. rewrite !elem_of_cons, elem_of_nil.
  split; [intros [->| [->|[]]]; auto | intros [[= ->]|[= ->]]; auto].
Qed.

Lemma catalog_matches_elem fields l f :
  f ∈ catalog_matches fields l <-> f ∈ fields ∧ JStr f ∈ l.
Proof.
  induction l as [|x l IH]; cbn [catalog_matches].
  - rewrite !elem_of_nil. tauto.
  - destruct x as [| | |s| |]; rewrite ?IH, ?elem_of_cons;
      try (split; [intros [? ?]; auto | intros [? [?|?]]; [discriminate|auto]]).
    case_bool_decide as Hs; rewrite ?elem_of_cons, IH.
    + split; [intros [->|[? ?]]; auto | intros [? [[= ->]|?]]; auto].
    + split; [intros [? ?]; auto | intros [? [[= ->]|?]]; [done|auto]].
Qed.

End ExtractionFacts.

(** The loop over two lists of items in a row. *)
Lemma merge_extracted_app (fields : list string) (its1 : list (string * json)) :
  forall (its2 : list (string * json)) (merged merged' : gmap string json),
  merge_extracted fields (its1 ++ its2) merged = inr merged' ->
  exists middle,
    merge_extracted fields its1 merged = inr middle
    ∧ merge_extracted fields its2 middle = inr merged'.
Proof.
  induction its1 as [|[f data] rest IH]; intros its2 merged merged' Hm.
  - exists merged. by split.
  - rewrite <- app_comm_cons in Hm. cbn [merge_extracted] in *.
    case_bool_decide; [|by apply IH].
    destruct data as [| | | | |d]; try discriminate.
    destruct (PyJson.confidence_accepted d); by apply IH.
Qed.

(** The last accepted proposal for a field is the one the loop leaves in
    the map, whatever the map held for that field before. *)
Lemma merge_extracted_last (fields : list string)
    (before after : list (string * json)) (k : string) (data : json)
    (merged merged' : gmap string json) :
  merge_extracted fields (before ++ (k, data) :: after) merged = inr merged' ->
  accepted fields k data ->
  (forall v, (k, v) ∈ after -> ¬ accepted fields k v) ->
  merged' !! k = Some data.
Proof.
  intros Hm (Hk & d & -> & Hd) Hlast.
  apply merge_extracted_app in Hm as (middle & _ & Hm).
  cbn [merge_extracted] in Hm.
  rewrite bool_decide_eq_true_2, Hd in Hm by done.
  rewrite (merge_extracted_kept _ _ _ _ _ Hm Hlast).
  apply lookup_insert_eq.
Qed.

(** C3, as the code has it. Every field present in the gathered_info
    given to [analyze_and_extract] is present in the gathered_info it
    returns. When the extraction is skipped or gives up (the service
    fails, or its result does not parse or has the wrong shape), the
    gathered_info is returned as it was given. When the extraction
    succeeds, a field keeps its value if the response carries no
    accepted proposal (catalog field, confidence high or medium) for it,
    and otherwise takes the data of the last accepted proposal for it:
    the latest accepted extraction wins, not the first. The attempted
    fields after the turn include those before it. *)
Theorem merge_monotone (json_loads : string -> option json)
    (service : prompt -> response) (issues : list issue)
    (gathered : gmap string json) (existing : list string)
    (chat_history : list chat_msg) :
  let fields := all_issue_fields issues in
  let r := service (analysis_prompt issues gathered chat_history) in
  let e := run service
             (analyze_and_extract json_loads issues gathered existing chat_history) in
  (forall k, is_Some (gathered !! k) -> is_Some (ex_gathered_info e !! k))
  /\ ((length (user_messages chat_history) < 2)%nat
      ∨ (exists err,
           extract_of_response json_loads issues gathered existing r = inl err) ->
      ex_gathered_info e = gathered)
  /\ (forall k v, gathered !! k = Some v ->
        (forall v', (k, v') ∈ proposals json_loads r -> ¬ accepted fields k v') ->
        ex_gathered_info e !! k = Some v)
  /\ (forall e' before k data after,
        (2 <= length (user_messages chat_history))%nat ->
        extract_of_response json_loads issues gathered existing r = inr e' ->
        proposals json_loads r = (before ++ (k, data) :: after)%list ->
        accepted fields k data ->
        (forall v', (k, v') ∈ after -> ¬ accepted fields k v') ->
        ex_gathered_info e !! k = Some data)
  /\ (forall k v, gathered !! k = Some v ->
        ex_gathered_info e !! k = Some v
        ∨ exists v', accepted fields k v' ∧ (k, v') ∈ proposals json_loads r
                     ∧ ex_gathered_info e !! k = Some v')
  /\ attempted gathered existing
     ⊆ attempted (ex_gathered_info e) (existing ++ ex_cannot_answer_fields e).
Proof.
  cbv zeta. split; [|split; [|split; [|split; [|split]]]].
  - destruct (analyze_and_extract_cases json_loads service issues gathered
                existing chat_history)
      as [(Hg & _)|(merged & Hm & Hg & _)]; rewrite Hg; [done|].
    intros k. by eapply merge_extracted_keeps_keys.
  - rewrite analyze_and_extract_run. intros [Hlt|[err Herr]].
    + by rewrite bool_decide_eq_true_2.
    + rewrite Herr. by case_bool_decide.
  - destruct (analyze_and_extract_cases json_loads service issues gathered
                existing chat_history)
      as [(Hg & _)|(merged & Hm & Hg & _)]; rewrite Hg; [done|].
    intros k v Hk Hno. by rewrite (merge_extracted_kept _ _ _ _ _ Hm Hno).
  - intros e' before k data after Hlen He Hp Ha Hlast.
    rewrite analyze_and_extract_run.
    rewrite bool_decide_eq_false_2 by lia. rewrite He.
    apply extract_of_response_success in He as (merged & Hm & ->).
    cbn [ex_gathered_info]. rewrite Hp in Hm.
    by eapply merge_extracted_last.
  - destruct (analyze_and_extract_cases json_loads service issues gathered
                existing chat_history)
      as [(Hg & _)|(merged & Hm & Hg & _)]; rewrite Hg; [by left|].
    intros k v Hk.
    destruct (merge_extracted_keeps_keys _ _ _ _ Hm k) as [v' Hv']; [by eexists|].
    destruct (merge_extracted_origin _ _ _ _ Hm k v' Hv') as [Hin|[Ha Hin]].
    + left. congruence.
    + right. by exists v'.
  - destruct (analyze_and_extract_cases json_loads service issues gathered
                existing chat_history)
      as [(Hg & Hc & _)|(merged & Hm & Hg & Hc & _)]; rewrite Hg.
    + by rewrite Hc, app_nil_r.
    + unfold attempted. intros k. rewrite !elem_of_union, !elem_of_dom.
      rewrite !elem_of_list_to_set, elem_of_app.
      intros [Hk|Hk]; [left|by right; left].
      by eapply merge_extracted_keeps_keys.
Qed.

Lemma merge_monotone_witness :
  Examples.answered_revenue !! "revenue" = Some (Examples.answer "1M" "medium")
  /\ (2 <= length (user_messages Examples.history2))%nat
  /\ ex_gathered_info
       (run (Examples.answering Examples.revenue_result)
          (analyze_and_extract (Examples.loads_of Examples.revenue_result)
             Examples.catalog Examples.answered_revenue [] Examples.history2))
     !! "revenue" = Some (Examples.answer "2M" "high").
Proof.
  split; [vm_compute; reflexivity|]. split; [vm_compute; lia|].
  destruct (extract_of_response (Examples.loads_of Examples.revenue_result)
              Examples.catalog Examples.answered_revenue []
              (Examples.answering Examples.revenue_result
                 (analysis_prompt Examples.catalog Examples.answered_revenue
                    Examples.history2)))
    as [err|e'] eqn:He; [vm_compute in He; discriminate He|].
  destruct (merge_monotone (Examples.loads_of Examples.revenue_result)
              (Examples.answering Examples.revenue_result)
              Examples.catalog Examples.answered_revenue [] Examples.history2)
    as (_ & _ & _ & Hlast & _).
  apply (Hlast e' [] "revenue" (Examples.answer "2M" "high") []).
  - vm_compute; lia.
  - exact He.
  - vm_compute; reflexivity.
  - split; [by left|]. eexists. split; [reflexivity|]. vm_compute; reflexivity.
  - intros v' Hv'. by apply elem_of_nil in Hv'.
Defined.

(** C3, as the claim states it, fails: a field that is already in
    gathered_info does not keep its value when the response proposes a
    value of high confidence for it. *)
Lemma gathered_value_overwritten :
  ¬ (forall k v,
       Examples.answered_revenue !! k = Some v ->
       ex_gathered_info
         (run (Examples.answering Examples.revenue_result)
            (analyze_and_extract (Examples.loads_of Examples.revenue_result)
               Examples.catalog Examples.answered_revenue [] Examples.history2))
       !! k = Some v).
Proof.
  intros H.
  specialize (H "revenue" (Examples.answer "1M" "medium")).
  vm_compute in H. specialize (H eq_refl). discriminate H.
Qed.

(** C5. A value is in the merged gathered_info only if it was there
    before or is a proposal of the response whose field is a catalog
    field and whose confidence is 'high' or 'medium'. A proposal of
    confidence 'low', or for a field outside the catalog, is skipped by
    the merge loop without an error, and a field that has only such
    proposals and was not gathered before is not in gathered_info
    afterwards. *)
Theorem confidence_gate (json_loads : string -> option json)
    (service : prompt -> response) (issues : list issue)
    (gathered : gmap string json) (existing : list string)
    (chat_history : list chat_msg) :
  let fields := all_issue_fields issues in
  let r := service (analysis_prompt issues gathered chat_history) in
  let e := run service
             (analyze_and_extract json_loads issues gathered existing chat_history) in
  (forall k v, ex_gathered_info e !! k = Some v ->
     gathered !! k = Some v
     ∨ ((k, v) ∈ proposals json_loads r ∧ k ∈ fields
        ∧ exists d, v = JDict d
            ∧ (PyJson.lookup_items "confidence" d = Some (JStr "high")
               ∨ PyJson.lookup_items "confidence" d = Some (JStr "medium"))))
  /\ (forall k, gathered !! k = None ->
        (k ∉ fields
         ∨ forall v, (k, v) ∈ proposals json_loads r ->
             exists d, v = JDict d
               ∧ PyJson.lookup_items "confidence" d = Some (JStr "low")) ->
        ex_gathered_info e !! k = None)
  /\ (forall k data rest merged,
        (k ∉ fields
         ∨ exists d, data = JDict d
             ∧ PyJson.lookup_items "confidence" d = Some (JStr "low")) ->
        merge_extracted fields ((k, data) :: rest) merged
        = merge_extracted fields rest merged).
Proof.
  cbv zeta.
  assert (Horigin : forall k v,
    ex_gathered_info
      (run service
         (analyze_and_extract json_loads issues gathered existing chat_history))
    !! k = Some v ->
    gathered !! k = Some v
    ∨ (accepted (all_issue_fields issues) k v
       ∧ (k, v) ∈ proposals json_loads
                    (service (analysis_prompt issues gathered chat_history)))).
  { destruct (analyze_and_extract_cases json_loads service issues gathered
                existing chat_history)
      as [(Hg & _)|(merged & Hm & Hg & _)]; rewrite Hg; [by left|].
    intros k v. by eapply merge_extracted_origin. }
  split; [|split].
  - intros k v Hk.
    destruct (Horigin k v Hk) as [Hin|[(Hf & d & -> & Hd) Hin]]; [by left|].
    right. split; [done|]. split; [done|]. exists d. split; [done|].
    by apply confidence_accepted_iff.
  - intros k Hk Hno.
    destruct (ex_gathered_info _ !! k) as [v|] eqn:Hv; [|reflexivity].
    destruct (Horigin k v Hv) as [Hin|[(Hf & d & -> & Hd) Hin]]; [congruence|].
    destruct Hno as [Hno|Hno]; [done|].
    destruct (Hno _ Hin) as (d' & [= <-] & Hlow).
    apply confidence_accepted_iff in Hd. rewrite Hlow in Hd.
    destruct Hd; discriminate.
  - intros k data rest merged [Hk|(d & -> & Hlow)];
      apply merge_extracted_skip; [by left|].
    right. exists d. split; [done|].
    unfold PyJson.confidence_accepted. by rewrite Hlow.
Qed.

Lemma confidence_gate_witness :
  (∅ : gmap string json) !! "revenue" = None
  /\ ex_gathered_info
       (run (Examples.answering Examples.vague_result)
          (analyze_and_extract (Examples.loads_of Examples.vague_result)
             Examples.catalog ∅ [] Examples.history2))
     !! "revenue" = None.
Proof.
  split; [reflexivity|].
  apply (confidence_gate (Examples.loads_of Examples.vague_result)
           (Examples.answering Examples.vague_result)
           Examples.catalog ∅ [] Examples.history2); [reflexivity|].
  right. intros v.
  assert (Hp : proposals (Examples.loads_of Examples.vague_result)
                 (Examples.answering Examples.vague_result
                    (analysis_prompt Examples.catalog ∅ Examples.history2))
               = [("revenue", Examples.answer "some" "low");
                  ("burn_rate", Examples.answer "50k" "high")])
    by (vm_compute; reflexivity).
  rewrite Hp, !elem_of_cons, elem_of_nil.
  intros [[= ->]|[[=]|[]]]. eexists. split; reflexivity.
Defined.




(** ** The next questions over a session *)

Section SessionFacts.

Variable json_loads : string -> option json.

Lemma persist_cannot_answer d res f :
  f ∈ cannot_answer_fields d -> f ∈ cannot_answer_fields (persist d res).
Proof. intros Hf. cbn. apply elem_of_app. by left. Qed.

Lemma session_cannot_answer turns : forall d h f,
  f ∈ cannot_answer_fields d ->
  f ∈ cannot_answer_fields (session json_loads turns (d, h)).1.
Proof.
  induction turns as [|[user_message service] turns IH]; intros d h f Hf.
  - exact Hf.
  - cbn [session]. unfold turn. cbn [fst snd]. apply IH.
    by apply persist_cannot_answer.
Qed.

Lemma candidate_not_attempted d i :
  i ∈ take 3 (still_needed_spec d) ->
  i ∈ issues d ∧ ¬ is_Some (gathered_info d !! field i)
  ∧ field i ∉ cannot_answer_fields d.
Proof.
  intros Hi. apply elem_of_take in Hi as (n & Hn & _).
  apply list_elem_of_lookup_2 in Hn.
  apply list_elem_of_filter in Hn. tauto.
Qed.

End SessionFacts.

(** C6. The candidate next questions are the questions of the first (at
    most) three catalog issues, in catalog order, whose field is neither
    a key of gathered_info nor a cannot-answer field. A field that is a
    cannot-answer field is the field of no candidate, in this turn and
    in every later turn of the session. *)
Theorem next_questions_policy (json_loads : string -> option json)
    (d : interview_data) :
  next_questions d = question <$> take 3 (still_needed_spec d)
  /\ (length (next_questions d) <= 3)%nat
  /\ take 3 (still_needed_spec d) `sublist_of` issues d
  /\ (forall i, i ∈ take 3 (still_needed_spec d) ->
        ¬ is_Some (gathered_info d !! field i)
        ∧ field i ∉ cannot_answer_fields d)
  /\ (forall turns h f,
        f ∈ cannot_answer_fields d ->
        forall i,
          i ∈ take 3 (still_needed_spec (session json_loads turns (d, h)).1) ->
          field i ≠ f).
Proof.
  split; [|split; [|split; [|split]]].
  - unfold next_questions. by rewrite still_needed_eq_spec.
  - unfold next_questions. rewrite length_fmap, length_take. lia.
  - etrans; [apply sublist_take|]. apply sublist_filter.
  - intros i Hi. by apply candidate_not_attempted in Hi as (_ & ? & ?).
  - intros turns h f Hf i Hi <-.
    apply candidate_not_attempted in Hi as (_ & _ & Hi).
    apply Hi. by apply session_cannot_answer.
Qed.

Lemma next_questions_policy_witness :
  "revenue" ∈ cannot_answer_fields Examples.revenue_unknown
  /\ forall i,
       i ∈ take 3
             (still_needed_spec
                (session (Examples.loads_of Examples.vague_result)
                   [("I really do not know", Examples.always Raises);
                    ("Maybe later", Examples.answering Examples.vague_result)]
                   (Examples.revenue_unknown, Examples.history)).1) ->
       field i ≠ "revenue".
Proof.
  split; [by left|].
  apply (next_questions_policy (Examples.loads_of Examples.vague_result)
           Examples.revenue_unknown).
  by left.
Defined.

(** ** The completion flag *)

Lemma gathered_count_size (fields : list string) (m : gmap string json) :
  length (filter (λ f, f ∈ fields) (keys m))
  = size (list_to_set fields ∩ dom m : gset string).
Proof.
  rewrite <- (size_list_to_set (C := gset string)).
  - f_equal. apply set_eq. intros x.
    rewrite elem_of_intersection, !elem_of_list_to_set, list_elem_of_filter.
    rewrite elem_of_dom, elem_of_keys. tauto.
  - apply NoDup_filter, NoDup_fst_map_to_list.
Qed.

(** The code never counts fewer fields than are covered. *)
Lemma covered_le_attempted (fields : list string) (merged : gmap string json)
    (cannot : list string) :
  (size (covered_spec fields merged cannot)
   <= length (filter (λ f, f ∈ fields) (keys merged))
      + size (list_to_set cannot : gset string))%nat.
Proof.
  rewrite gathered_count_size. unfold covered_spec, attempted.
  set (F := list_to_set fields : gset string).
  set (C := list_to_set cannot : gset string).
  transitivity (size ((F ∩ dom merged) ∪ C)).
  - apply subseteq_size. set_solver.
  - rewrite size_union_alt.
    assert (size (C ∖ (F ∩ dom merged)) <= size C)%nat
      by (apply subseteq_size; set_solver).
    lia.
Qed.

(** When the cannot-answer fields are catalog fields and none of them
    is a key of the merged map, the code counts exactly the covered
    fields. *)
Lemma covered_eq_attempted (fields : list string) (merged : gmap string json)
    (cannot : list string) :
  (forall f, f ∈ cannot -> f ∈ fields) ->
  (forall f, f ∈ cannot -> merged !! f = None) ->
  (length (filter (λ f, f ∈ fields) (keys merged))
   + size (list_to_set cannot : gset string))%nat
  = size (covered_spec fields merged cannot).
Proof.
  intros Hin Hdisj.
  rewrite gathered_count_size. unfold covered_spec, attempted.
  set (F := list_to_set fields : gset string).
  set (C := list_to_set cannot : gset string).
  assert (HC : forall f, f ∈ C -> f ∈ F ∧ f ∉ dom merged).
  { intros f Hf. apply elem_of_list_to_set in Hf. split.
    - apply elem_of_list_to_set. auto.
    - rewrite not_elem_of_dom. auto. }
  rewrite <- size_union by (intros f Hf1 Hf2; apply HC in Hf2; set_solver).
  f_equal. apply set_eq. intros f. specialize (HC f). set_solver.
Qed.

Lemma completion_when_covered fields merged (existing new_cannot : list string) :
  completion_spec fields merged (existing ++ new_cannot)%list = true ->
  completion fields merged existing new_cannot = true.
Proof.
  unfold completion_spec, completion. rewrite !bool_decide_eq_true.
  pose proof (covered_le_attempted fields merged (existing ++ new_cannot)%list).
  lia.
Qed.

Lemma completion_eq_spec fields merged (existing new_cannot : list string) :
  (forall f, f ∈ (existing ++ new_cannot)%list -> f ∈ fields) ->
  (forall f, f ∈ (existing ++ new_cannot)%list -> merged !! f = None) ->
  completion fields merged existing new_cannot
  = completion_spec fields merged (existing ++ new_cannot)%list.
Proof.
  intros Hin Hdisj. unfold completion_spec, completion.
  by rewrite (covered_eq_attempted _ _ _ Hin Hdisj).
Qed.

(** C1, at an input where the claim and the code differ. The catalog has
    two issues; the participant could not tell the revenue in an earlier
    turn and tells it in this one. The revenue is then counted both as
    gathered and as a cannot-answer field, and the turn is complete
    although one catalog field only is covered and team_size is still
    pending. *)
Theorem completion_counts_overlap_twice :
  let e := run (Examples.answering Examples.revenue_result)
             (analyze_and_extract (Examples.loads_of Examples.revenue_result)
                Examples.catalog ∅ ["revenue"] Examples.history2) in
  let cannot := (["revenue"] ++ ex_cannot_answer_fields e)%list in
  ex_is_complete e = true
  /\ ex_still_pending e = ["team_size"]
  /\ length Examples.catalog = 2%nat
  /\ size (covered_spec (all_issue_fields Examples.catalog)
             (ex_gathered_info e) cannot) = 1%nat
  /\ completion_spec (all_issue_fields Examples.catalog)
       (ex_gathered_info e) cannot = false.
Proof. vm_compute. repeat split; reflexivity. Qed.

(** * Further properties of the engine *)

(** ** Service calls of a turn *)

Lemma user_messages_app (h1 h2 : list chat_msg) :
  user_messages (h1 ++ h2) = (user_messages h1 ++ user_messages h2)%list.
Proof. apply filter_app. Qed.

Lemma user_messages_turn (h : list chat_msg) (user_message ai_message : string) :
  length (user_messages (h ++ [ChatMsg "user" user_message;
                               ChatMsg "assistant" ai_message]))
  = S (length (user_messages h)).
Proof.
  rewrite user_messages_app, length_app. unfold user_messages at 2.
  rewrite filter_cons_True by reflexivity.
  rewrite filter_cons_False by discriminate.
  cbn. lia.
Qed.

(** X1. A turn asks the reasoning service for the reply first. It asks
    for an extraction afterwards, on the transcript extended with the
    participant's message and the reply, exactly when the transcript it
    was given already holds a message of role 'user'; otherwise the
    reply is the only call. *)
Theorem turn_service_calls (json_loads : string -> option json)
    (service : prompt -> response) (d : interview_data)
    (user_message : string) (chat_history : list chat_msg) :
  let p := reply_prompt d user_message chat_history in
  let transcript :=
    (chat_history ++ [ChatMsg "user" user_message;
                      ChatMsg "assistant" (reply d (service p))])%list in
  asked service (chat_with_founder json_loads d user_message chat_history)
  = if bool_decide (user_messages chat_history = [])
    then [p]
    else [p; analysis_prompt (issues d) (gathered_info d) transcript].
Proof.
  cbv zeta. unfold chat_with_founder. cbn [asked].
  rewrite asked_bind. cbn [asked]. rewrite app_nil_r.
  unfold analyze_and_extract. rewrite user_messages_turn.
  destruct (user_messages chat_history) as [|m l] eqn:Hu.
  - rewrite bool_decide_eq_true_2 by (cbn; lia).
    rewrite bool_decide_eq_true_2 by done. reflexivity.
  - rewrite bool_decide_eq_false_2 by (cbn; lia).
    rewrite bool_decide_eq_false_2 by done. reflexivity.
Qed.

(** ** The question-mark rule *)

Module QuestionMarkFacts.
Import PyStr.

Lemma last_char_app (s : string) (c : ascii) :
  last_char (s ++ String c EmptyString) = Some c.
Proof.
  induction s as [|a s IH]; [reflexivity|].
  change (last_char (String a (s ++ String c EmptyString)) = Some c).
  destruct (s ++ String c EmptyString) eqn:E.
  - destruct s; discriminate.
  - exact IH.
Qed.

Lemma endswith_app_char (s : string) (c : ascii) :
  endswith (s ++ String c EmptyString) (String c EmptyString) = true.
Proof.
  rewrite PyStrFacts.endswith_char, last_char_app. apply Ascii.eqb_refl.
Qed.

Lemma prefix_refl (s : string) : String.prefix s s = true.
Proof.
  induction s as [|a s IH]; [reflexivity|].
  cbn. destruct (ascii_dec a a); [exact IH|congruence].
Qed.

Lemma endswith_contains (s sub : string) :
  endswith s sub = true -> contains s sub = true.
Proof.
  induction s as [|a s IH]; cbn [endswith contains]; intros H.
  - rewrite orb_false_r in H. apply String.eqb_eq in H as <-. reflexivity.
  - apply orb_true_iff in H as [H|H].
    + apply String.eqb_eq in H as <-. by rewrite prefix_refl.
    + rewrite (IH H). apply orb_true_r.
Qed.

(** Text ending in "?" is left as it is. *)
Lemma enforce_fixed (m : string) :
  endswith m "?" = true -> enforce_question_mark m = m.
Proof. intros H. unfold enforce_question_mark. by rewrite H. Qed.

(** The two outcomes of the rule: the text as it is, which then ends in
    "?", in "!", or in "." with a "?" inside; or a text ending in "?". *)
Lemma enforce_cases (m : string) :
  (enforce_question_mark m = m
   ∧ (endswith m "?" = true ∨ endswith m "!" = true
      ∨ (endswith m "." = true ∧ contains m "?" = true)))
  ∨ (exists s, enforce_question_mark m = s ++ "?").
Proof.
  unfold enforce_question_mark. cbn [existsb].
  destruct (endswith m "?") eqn:Hq; cbn [negb orb]; [left; auto|].
  destruct (endswith m "!") eqn:Hb; cbn [negb orb]; [|].
  - destruct (endswith m ".") eqn:Hd; [|left; auto].
    destruct (contains m "?") eqn:Hc; cbn [negb]; [left; auto|].
    right. by eexists.
  - destruct (endswith m ".") eqn:Hd; cbn [negb orb].
    + destruct (contains m "?") eqn:Hc; cbn [negb]; [left; auto|].
      right. by eexists.
    + right. by eexists.
Qed.

End QuestionMarkFacts.

(** X2. The question-mark rule is idempotent: applying it to its own
    result changes nothing. *)
Theorem enforce_question_mark_idempotent (m : string) :
  enforce_question_mark (enforce_question_mark m) = enforce_question_mark m.
Proof.
  destruct (QuestionMarkFacts.enforce_cases m) as [[H _]|[s ->]].
  - by rewrite !H.
  - apply QuestionMarkFacts.enforce_fixed, QuestionMarkFacts.endswith_app_char.
Qed.

(** X3. In continuation mode a reply written by the service contains a
    question mark, unless the text of the service ends in "!", which is
    returned as it is. *)
Theorem continuation_reply_has_question_mark (d : interview_data) (t : string) :
  will_be_closing d = false ->
  PyStr.strip t ≠ "" ->
  let out := reply d (Text (Some t)) in
  PyStr.contains out "?" = true
  ∨ (PyStr.endswith (PyStr.strip t) "!" = true ∧ out = PyStr.strip t).
Proof.
  intros Hc Ht. cbv zeta. unfold reply, reply_of_response. rewrite Hc.
  apply strip_truthy in Ht. cbv zeta. rewrite Ht. cbn [negb].
  destruct (QuestionMarkFacts.enforce_cases (PyStr.strip t))
    as [[Hm [H|[H|[_ H]]]]|[s Hm]]; rewrite !Hm.
  - left. by apply QuestionMarkFacts.endswith_contains.
  - right. auto.
  - left. exact H.
  - left. apply QuestionMarkFacts.endswith_contains.
    apply QuestionMarkFacts.endswith_app_char.
Qed.

Lemma continuation_reply_has_question_mark_witness :
  will_be_closing Examples.fresh = false
  /\ PyStr.strip " Got it. And your team " ≠ ""
  /\ (PyStr.contains (reply Examples.fresh (Text (Some " Got it. And your team "))) "?"
      = true
      ∨ (PyStr.endswith (PyStr.strip " Got it. And your team ") "!" = true
         ∧ reply Examples.fresh (Text (Some " Got it. And your team "))
           = PyStr.strip " Got it. And your team ")).
Proof.
  split; [vm_compute; reflexivity|]. split; [vm_compute; discriminate|].
  apply (continuation_reply_has_question_mark Examples.fresh
           " Got it. And your team ");
    [vm_compute; reflexivity | vm_compute; discriminate].
Defined.

(** ** More on the merge loop *)

Section MoreMergeFacts.

Variable fields : list string.

(** The loop gives the same map from any map that agrees with its result
    outside the fields of the accepted proposals. *)
Lemma merge_extracted_from_agreeing its : forall merged merged' other,
  merge_extracted fields its merged = inr merged' ->
  (forall k, (forall v, (k, v) ∈ its -> ¬ accepted fields k v) ->
             other !! k = merged' !! k) ->
  exists other',
    merge_extracted fields its other = inr other'
    ∧ forall k, other' !! k = merged' !! k.
Proof.
  induction its as [|[f data] rest IH]; intros merged merged' other Hm Hag.
  - injection Hm as <-. exists other. split; [reflexivity|].
    intros k. apply Hag. intros v Hv. by apply elem_of_nil in Hv.
  - assert (Hrest : forall m1 o1,
              merge_extracted fields rest m1 = inr merged' ->
              (forall k, k ≠ f -> o1 !! k = other !! k) ->
              ((forall v, (f, v) ∈ rest -> ¬ accepted fields f v) ->
               o1 !! f = merged' !! f) ->
              exists other',
                merge_extracted fields rest o1 = inr other'
                ∧ forall k, other' !! k = merged' !! k).
    { intros m1 o1 Hm1 Hne Hf. apply (IH m1 merged' o1 Hm1).
      intros k Hk. destruct (decide (k = f)) as [->|Hkf]; [by apply Hf|].
      rewrite (Hne k Hkf). apply Hag. intros v Hv.
      apply elem_of_cons in Hv as [[= ? ?]|Hv]; [done|by apply Hk]. }
    cbn [merge_extracted] in *. case_bool_decide as Hin.
    + destruct data as [| | | | |d]; try discriminate.
      destruct (PyJson.confidence_accepted d) eqn:Hd.
      * apply (Hrest _ _ Hm).
        -- intros k Hk. by rewrite lookup_insert_ne.
        -- intros Hf. rewrite lookup_insert_eq.
           rewrite (merge_extracted_kept _ _ _ _ _ Hm Hf).
           by rewrite lookup_insert_eq.
      * apply (Hrest _ _ Hm); [done|].
        intros Hf. apply Hag. intros v Hv.
        apply elem_of_cons in Hv as [[= ->]|Hv]; [|by apply Hf].
        intros (_ & d' & [= ->] & Hd'). congruence.
    + apply (Hrest _ _ Hm); [done|].
      intros Hf. apply Hag. intros v Hv.
      apply elem_of_cons in Hv as [[= ->]|Hv]; [|by apply Hf].
      by intros [? _].
Qed.

Lemma merge_extracted_again its merged merged' :
  merge_extracted fields its merged = inr merged' ->
  merge_extracted fields its merged' = inr merged'.
Proof.
  intros Hm.
  destruct (merge_extracted_from_agreeing its merged merged' merged' Hm)
    as (other' & Ho & Heq); [done|].
  rewrite Ho. f_equal. by apply map_eq.
Qed.

(** With each field proposed once, an accepted proposal is stored. *)
Lemma merge_extracted_stores its : forall merged merged',
  NoDup its.*1 ->
  merge_extracted fields its merged = inr merged' ->
  forall k v, (k, v) ∈ its -> accepted fields k v -> merged' !! k = Some v.
Proof.
  induction its as [|[f data] rest IH]; intros merged merged' Hnd Hm k v Hin Ha.
  - by apply elem_of_nil in Hin.
  - apply NoDup_cons in Hnd as [Hf Hnd].
    apply elem_of_cons in Hin as [[= -> ->]|Hin].
    + destruct Ha as (Hk & d & -> & Hd).
      cbn [merge_extracted] in Hm.
      rewrite bool_decide_eq_true_2, Hd in Hm by done.
      rewrite (merge_extracted_kept _ _ _ _ _ Hm).
      * apply lookup_insert_eq.
      * intros v Hv. exfalso. apply Hf. apply list_elem_of_fmap.
        by exists (f, v).
    + cbn [merge_extracted] in Hm. case_bool_decide.
      * destruct data as [| | | | |d]; try discriminate.
        destruct (PyJson.confidence_accepted d); by eapply IH.
      * by eapply IH.
Qed.

End MoreMergeFacts.

Section MoreExtractionFacts.

Variable json_loads : string -> option json.

Lemma analyze_and_extract_success service issues gathered existing chat_history e :
  (2 <= length (user_messages chat_history))%nat ->
  extract_of_response json_loads issues gathered existing
    (service (analysis_prompt issues gathered chat_history)) = inr e ->
  run service
    (analyze_and_extract json_loads issues gathered existing chat_history) = e.
Proof.
  intros Hlen He. rewrite analyze_and_extract_run.
  rewrite bool_decide_eq_false_2 by lia. by rewrite He.
Qed.

End MoreExtractionFacts.

(** X4. After a successful extraction whose response proposes each
    field once, every proposal for a catalog field with confidence
    'high' or 'medium' is in the returned gathered_info with the
    proposed data. *)
Theorem accepted_proposals_stored (json_loads : string -> option json)
    (service : prompt -> response) (issues : list issue)
    (gathered : gmap string json) (existing : list string)
    (chat_history : list chat_msg) (e : extraction) :
  let r := service (analysis_prompt issues gathered chat_history) in
  (2 <= length (user_messages chat_history))%nat ->
  extract_of_response json_loads issues gathered existing r = inr e ->
  NoDup (proposals json_loads r).*1 ->
  forall k d,
    (k, JDict d) ∈ proposals json_loads r ->
    k ∈ all_issue_fields issues ->
    PyJson.lookup_items "confidence" d = Some (JStr "high")
    ∨ PyJson.lookup_items "confidence" d = Some (JStr "medium") ->
    ex_gathered_info
      (run service
         (analyze_and_extract json_loads issues gathered existing chat_history))
    !! k = Some (JDict d).
Proof.
  cbv zeta. intros Hlen He Hnd k d Hin Hk Hconf.
  rewrite (analyze_and_extract_success _ _ _ _ _ _ _ Hlen He).
  apply extract_of_response_success in He as (merged & Hm & ->).
  cbn [ex_gathered_info].
  eapply merge_extracted_stores; [exact Hnd | exact Hm | exact Hin |].
  split; [done|]. exists d. split; [done|]. by apply confidence_accepted_iff.
Qed.

(** X5. Extracting again from the same response, starting from the
    gathered_info a successful extraction returned and from the
    cannot-answer fields extended with the ones it returned, succeeds
    and returns the same gathered_info, the same new cannot-answer
    fields and the same completion flag. *)
Theorem extraction_idempotent (json_loads : string -> option json)
    (issues : list issue) (gathered : gmap string json)
    (existing : list string) (r : response) (e : extraction) :
  extract_of_response json_loads issues gathered existing r = inr e ->
  exists e',
    extract_of_response json_loads issues (ex_gathered_info e)
      (existing ++ ex_cannot_answer_fields e) r = inr e'
    ∧ ex_gathered_info e' = ex_gathered_info e
    ∧ ex_cannot_answer_fields e' = ex_cannot_answer_fields e
    ∧ ex_is_complete e' = ex_is_complete e.
Proof.
  unfold extract_of_response.
  destruct r as [| |[t|]]; try discriminate.
  destruct (PyStr.truthy (PyStr.strip t)); cbn [negb]; [|discriminate].
  destruct (json_loads (PyStr.strip t)) as [result|]; [|discriminate].
  unfold merge_result, mbind, exn_mbind.
  destruct result as [| | | | |d]; try discriminate.
  cbn [PyJson.get exn_bind].
  destruct (default (JDict []) (PyJson.lookup_items "extracted" d))
    as [| | | | |its]; try discriminate.
  cbn [PyJson.items exn_bind].
  destruct (merge_extracted (all_issue_fields issues) its gathered)
    as [err|merged] eqn:Hm; [discriminate|].
  cbn [exn_bind].
  destruct (PyJson.iter (default (JList []) (PyJson.lookup_items "cannot_answer" d)))
    as [err|l]; [discriminate|].
  cbn [exn_bind]. intros [= <-]. cbn [ex_gathered_info ex_cannot_answer_fields].
  rewrite (merge_extracted_again _ _ _ _ Hm). cbn [exn_bind].
  eexists. split; [reflexivity|]. cbn.
  split; [reflexivity|]. split; [reflexivity|].
  unfold completion.
  set (new := catalog_matches (all_issue_fields issues) l).
  assert (Hs : (list_to_set ((existing ++ new) ++ new) : gset string)
               = list_to_set (existing ++ new)).
  { apply set_eq. intros x. rewrite !elem_of_list_to_set, !elem_of_app. tauto. }
  by rewrite Hs.
Qed.

Lemma extraction_idempotent_witness :
  exists e e',
    extract_of_response (Examples.loads_of Examples.vague_result)
      Examples.catalog ∅ []
      (Text (Some (Examples.dumps Examples.vague_result))) = inr e
    /\ extract_of_response (Examples.loads_of Examples.vague_result)
         Examples.catalog (ex_gathered_info e)
         ([] ++ ex_cannot_answer_fields e)
         (Text (Some (Examples.dumps Examples.vague_result))) = inr e'
    /\ ex_cannot_answer_fields e' = ["team_size"].
Proof.
  destruct (extract_of_response (Examples.loads_of Examples.vague_result)
              Examples.catalog ∅ []
              (Text (Some (Examples.dumps Examples.vague_result))))
    as [err|e] eqn:He; [vm_compute in He; discriminate He|].
  destruct (extraction_idempotent _ _ _ _ _ _ He) as (e' & He' & _ & Hc & _).
  exists e, e'. split; [reflexivity|]. split; [exact He'|].
  rewrite Hc. vm_compute in He. injection He as <-. reflexivity.
Defined.

Lemma accepted_proposals_stored_witness :
  (2 <= length (user_messages Examples.history2))%nat
  /\ ex_gathered_info
       (run (Examples.answering Examples.revenue_result)
          (analyze_and_extract (Examples.loads_of Examples.revenue_result)
             Examples.catalog ∅ [] Examples.history2))
     !! "revenue" = Some (Examples.answer "2M" "high").
Proof.
  split; [vm_compute; lia|].
  destruct (extract_of_response (Examples.loads_of Examples.revenue_result)
              Examples.catalog ∅ []
              (Examples.answering Examples.revenue_result
                 (analysis_prompt Examples.catalog ∅ Examples.history2)))
    as [err|e] eqn:He; [vm_compute in He; discriminate He|].
  assert (Hp : proposals (Examples.loads_of Examples.revenue_result)
                 (Examples.answering Examples.revenue_result
                    (analysis_prompt Examples.catalog ∅ Examples.history2))
               = [("revenue", Examples.answer "2M" "high")])
    by (vm_compute; reflexivity).
  apply (accepted_proposals_stored (Examples.loads_of Examples.revenue_result)
           (Examples.answering Examples.revenue_result)
           Examples.catalog ∅ [] Examples.history2 e).
  - vm_compute; lia.
  - exact He.
  - rewrite Hp. apply NoDup_singleton.
  - rewrite Hp. by left.
  - by left.
  - by left.
Defined.

(** ** More on the completion flag *)

Lemma all_attempted_complete (fields : list string) (merged : gmap string json)
    (existing new_cannot : list string) :
  NoDup fields ->
  (forall f, f ∈ fields ->
     is_Some (merged !! f) ∨ f ∈ (existing ++ new_cannot)%list) ->
  completion fields merged existing new_cannot = true.
Proof.
  intros Hnd Hall. apply completion_when_covered.
  unfold completion_spec. apply bool_decide_eq_true.
  rewrite <- (size_list_to_set (C := gset string) fields Hnd).
  apply subseteq_size. unfold covered_spec, attempted.
  intros f Hf. apply elem_of_intersection. split; [done|].
  apply elem_of_list_to_set in Hf.
  rewrite elem_of_union, elem_of_dom, elem_of_list_to_set. auto.
Qed.

Lemma complete_all_attempted (fields : list string) (merged : gmap string json)
    (existing new_cannot : list string) :
  NoDup fields ->
  (forall f, f ∈ (existing ++ new_cannot)%list -> f ∈ fields) ->
  (forall f, f ∈ (existing ++ new_cannot)%list -> merged !! f = None) ->
  completion fields merged existing new_cannot = true ->
  forall f, f ∈ fields ->
    is_Some (merged !! f) ∨ f ∈ (existing ++ new_cannot)%list.
Proof.
  intros Hnd Hin Hdisj Hc f Hf.
  rewrite (completion_eq_spec _ _ _ _ Hin Hdisj) in Hc.
  unfold completion_spec in Hc. apply bool_decide_eq_true in Hc.
  rewrite <- (size_list_to_set (C := gset string) fields Hnd) in Hc.
  assert (Heq : covered_spec fields merged (existing ++ new_cannot)
                = list_to_set fields).
  { apply set_subseteq_size_eq; [|exact Hc].
    unfold covered_spec. apply intersection_subseteq_l. }
  assert (Hcov : f ∈ covered_spec fields merged (existing ++ new_cannot)).
  { rewrite Heq. by apply elem_of_list_to_set. }
  unfold covered_spec, attempted in Hcov.
  apply elem_of_intersection in Hcov as [_ Hcov].
  rewrite elem_of_union, elem_of_dom, elem_of_list_to_set in Hcov. exact Hcov.
Qed.

Lemma filter_nil_all {A} (P : A -> Prop) `{∀ x, Decision (P x)} (l : list A) :
  filter P l = [] -> forall x, x ∈ l -> ¬ P x.
Proof. intros Hf x Hx HP. by apply (filter_nil_not_elem_of P l x). Qed.

(** X6. After a successful extraction on a catalog without duplicate
    fields, an empty still_pending list comes with is_complete = True:
    when every catalog field is a key of the merged map or an earlier
    cannot-answer field, the turn is complete. *)
Theorem nothing_pending_complete (json_loads : string -> option json)
    (issues : list issue) (gathered : gmap string json)
    (existing : list string) (r : response) (e : extraction) :
  NoDup (all_issue_fields issues) ->
  extract_of_response json_loads issues gathered existing r = inr e ->
  ex_still_pending e = [] ->
  ex_is_complete e = true.
Proof.
  intros Hnd He Hp.
  apply extract_of_response_success in He as (merged & _ & ->).
  cbn [ex_still_pending ex_is_complete] in *.
  apply all_attempted_complete; [exact Hnd|].
  intros f Hf. pose proof (filter_nil_all _ _ Hp f Hf) as Hn.
  destruct (decide (f ∈ keys merged)) as [Hk|Hk].
  - left. by apply elem_of_keys.
  - right. apply elem_of_app. left.
    destruct (decide (f ∈ existing)); [done|]. by destruct Hn.
Qed.

Lemma nothing_pending_complete_witness :
  exists e,
    extract_of_response (Examples.loads_of Examples.revenue_result)
      Examples.catalog ∅ ["team_size"]
      (Text (Some (Examples.dumps Examples.revenue_result))) = inr e
    /\ ex_still_pending e = []
    /\ ex_is_complete e = true.
Proof.
  destruct (extract_of_response (Examples.loads_of Examples.revenue_result)
              Examples.catalog ∅ ["team_size"]
              (Text (Some (Examples.dumps Examples.revenue_result))))
    as [err|e] eqn:He; [vm_compute in He; discriminate He|].
  exists e. split; [reflexivity|].
  assert (Hp : ex_still_pending e = []).
  { vm_compute in He. injection He as <-. reflexivity. }
  split; [exact Hp|].
  apply (nothing_pending_complete (Examples.loads_of Examples.revenue_result)
           Examples.catalog ∅ ["team_size"]
           (Text (Some (Examples.dumps Examples.revenue_result))) e);
    [|exact He|exact Hp].
  vm_compute. repeat constructor; set_solver.
Defined.

(** X7. After a successful extraction on a catalog without duplicate
    fields, when the earlier cannot-answer fields are catalog fields
    and no cannot-answer field, earlier or new, is a key of the merged
    map, is_complete is True exactly when all issues are attempted:
    every catalog field is a key of the merged map or a cannot-answer
    field. *)
Theorem complete_iff_all_attempted (json_loads : string -> option json)
    (issues : list issue) (gathered : gmap string json)
    (existing : list string) (r : response) (e : extraction) :
  let cannot := (existing ++ ex_cannot_answer_fields e)%list in
  NoDup (all_issue_fields issues) ->
  extract_of_response json_loads issues gathered existing r = inr e ->
  (forall f, f ∈ existing -> f ∈ all_issue_fields issues) ->
  (forall f, f ∈ cannot -> ex_gathered_info e !! f = None) ->
  (ex_is_complete e = true
   <-> forall f, f ∈ all_issue_fields issues ->
         is_Some (ex_gathered_info e !! f) ∨ f ∈ cannot).
Proof.
  cbv zeta. intros Hnd He Hex Hdisj.
  apply extract_of_response_success in He as (merged & _ & ->).
  cbn [ex_is_complete ex_gathered_info ex_cannot_answer_fields] in *.
  split.
  - apply complete_all_attempted; [exact Hnd| |exact Hdisj].
    intros f Hf. apply elem_of_app in Hf as [Hf|Hf]; [by apply Hex|].
    by apply catalog_matches_elem in Hf as [? _].
  - by apply all_attempted_complete.
Qed.

Lemma complete_iff_all_attempted_witness :
  exists e,
    extract_of_response (Examples.loads_of Examples.vague_result)
      Examples.catalog Examples.answered_revenue []
      (Text (Some (Examples.dumps Examples.vague_result))) = inr e
    /\ ex_is_complete e = true.
Proof.
  destruct (extract_of_response (Examples.loads_of Examples.vague_result)
              Examples.catalog Examples.answered_revenue []
              (Text (Some (Examples.dumps Examples.vague_result))))
    as [err|e] eqn:He; [vm_compute in He; discriminate He|].
  exists e. split; [reflexivity|].
  assert (Hg : ex_gathered_info e = Examples.answered_revenue
               ∧ ex_cannot_answer_fields e = ["team_size"]).
  { vm_compute in He. injection He as <-. split; reflexivity. }
  destruct Hg as [Hg Hc].
  apply (complete_iff_all_attempted (Examples.loads_of Examples.vague_result)
           Examples.catalog Examples.answered_revenue []
           (Text (Some (Examples.dumps Examples.vague_result))) e).
  - vm_compute. repeat constructor; set_solver.
  - exact He.
  - intros f Hf. by apply elem_of_nil in Hf.
  - rewrite Hg, Hc. intros f Hf. cbn in Hf.
    apply list_elem_of_singleton in Hf as ->. vm_compute. reflexivity.
  - rewrite Hg, Hc. intros f Hf. vm_compute in Hf.
    apply elem_of_cons in Hf as [->|Hf].
    + left. vm_compute. eexists. reflexivity.
    + apply list_elem_of_singleton in Hf as ->. right. by left.
Defined.

(** X8. In closing mode, on a catalog without duplicate fields, a turn
    whose extraction succeeds returns is_complete = True. *)
Theorem closing_turn_complete (json_loads : string -> option json)
    (service : prompt -> response) (d : interview_data)
    (user_message : string) (chat_history : list chat_msg) (e : extraction) :
  let transcript :=
    (chat_history
     ++ [ChatMsg "user" user_message;
         ChatMsg "assistant"
           (reply d (service (reply_prompt d user_message chat_history)))])%list in
  NoDup (all_issue_fields (issues d)) ->
  will_be_closing d = true ->
  user_messages chat_history ≠ [] ->
  extract_of_response json_loads (issues d) (gathered_info d)
    (cannot_answer_fields d)
    (service (analysis_prompt (issues d) (gathered_info d) transcript)) = inr e ->
  tr_is_complete
    (run service (chat_with_founder json_loads d user_message chat_history))
  = true.
Proof.
  cbv zeta. intros Hnd Hc Hu He.
  rewrite chat_with_founder_run. cbn [tr_is_complete].
  rewrite (analyze_and_extract_success _ _ _ _ _ _ e).
  - apply will_be_closing_true in Hc.
    apply extract_of_response_success in He as (merged & Hm & ->).
    cbn [ex_is_complete]. apply all_attempted_complete; [exact Hnd|].
    intros f Hf. apply list_elem_of_fmap in Hf as (i & -> & Hi).
    pose proof (filter_nil_all _ _ Hc i Hi) as Hn.
    destruct (decide (is_Some (gathered_info d !! field i))) as [Hg|Hg].
    + left. by eapply merge_extracted_keeps_keys.
    + right. apply elem_of_app. left.
      destruct (decide (field i ∈ cannot_answer_fields d)); [done|].
      by destruct Hn.
  - rewrite user_messages_turn.
    destruct (user_messages chat_history); [done|cbn; lia].
  - exact He.
Qed.

Lemma closing_turn_complete_witness :
  will_be_closing Examples.finished = true
  /\ tr_is_complete
       (run (Examples.answering Examples.revenue_result)
          (chat_with_founder (Examples.loads_of Examples.revenue_result)
             Examples.finished "That is all" Examples.history))
     = true.
Proof.
  split; [vm_compute; reflexivity|].
  destruct (extract_of_response (Examples.loads_of Examples.revenue_result)
              (issues Examples.finished) (gathered_info Examples.finished)
              (cannot_answer_fields Examples.finished)
              (Examples.answering Examples.revenue_result
                 (analysis_prompt (issues Examples.finished)
                    (gathered_info Examples.finished)
                    (Examples.history
                     ++ [ChatMsg "user" "That is all";
                         ChatMsg "assistant"
                           (reply Examples.finished
                              (Examples.answering Examples.revenue_result
                                 (reply_prompt Examples.finished "That is all"
                                    Examples.history)))]))))
    as [err|e] eqn:He; [vm_compute in He; discriminate He|].
  apply (closing_turn_complete (Examples.loads_of Examples.revenue_result)
           (Examples.answering Examples.revenue_result) Examples.finished
           "That is all" Examples.history e).
  - vm_compute. repeat constructor; set_solver.
  - vm_compute; reflexivity.
  - vm_compute; discriminate.
  - exact He.
Defined.

(** X9. A turn returns is_complete = True only when the extraction was
    asked for and succeeded: the transcript it was given holds a message
    of role 'user', and the response to the analysis prompt parses into
    a result whose own completion flag is True. *)
Theorem complete_needs_extraction (json_loads : string -> option json)
    (service : prompt -> response) (d : interview_data)
    (user_message : string) (chat_history : list chat_msg) :
  let transcript :=
    (chat_history
     ++ [ChatMsg "user" user_message;
         ChatMsg "assistant"
           (reply d (service (reply_prompt d user_message chat_history)))])%list in
  tr_is_complete
    (run service (chat_with_founder json_loads d user_message chat_history))
  = true ->
  user_messages chat_history ≠ []
  /\ exists e,
       extract_of_response json_loads (issues d) (gathered_info d)
         (cannot_answer_fields d)
         (service (analysis_prompt (issues d) (gathered_info d) transcript))
       = inr e
       ∧ ex_is_complete e = true.
Proof.
  cbv zeta. rewrite chat_with_founder_run. cbn [tr_is_complete].
  rewrite analyze_and_extract_run, user_messages_turn.
  case_bool_decide as Hlen; [discriminate|].
  destruct (extract_of_response _ _ _ _ _) as [err|e]; [discriminate|].
  intros Hc. split.
  - intros Hu. rewrite Hu in Hlen. cbn in Hlen. lia.
  - by exists e.
Qed.

Lemma complete_needs_extraction_witness :
  tr_is_complete
    (run (Examples.answering Examples.revenue_result)
       (chat_with_founder (Examples.loads_of Examples.revenue_result)
          Examples.finished "That is all" Examples.history))
  = true
  /\ exists e, ex_is_complete e = true
               ∧ ex_cannot_answer_fields e = [].
Proof.
  split; [vm_compute; reflexivity|].
  destruct (complete_needs_extraction
              (Examples.loads_of Examples.revenue_result)
              (Examples.answering Examples.revenue_result) Examples.finished
              "That is all" Examples.history)
    as [_ (e & He & Hc)]; [vm_compute; reflexivity|].
  exists e. split; [exact Hc|].
  vm_compute in He. by injection He as <-.
Defined.

(** ** What the prompts carry *)

Lemma length_last_n {A} (n : nat) (l : list A) :
  length (last_n n l) = (length l `min` n)%nat.
Proof. unfold last_n. rewrite length_drop. lia. Qed.

Lemma last_n_last_n {A} (a b : nat) (l : list A) :
  (a <= b)%nat -> last_n a (last_n b l) = last_n a l.
Proof.
  intros Hab. unfold last_n at 1. rewrite length_last_n.
  unfold last_n. rewrite drop_drop. f_equal. lia.
Qed.

Lemma last_n_fmap {A B} (f : A -> B) (n : nat) (l : list A) :
  last_n n (f <$> l) = f <$> last_n n l.
Proof. unfold last_n. by rewrite length_fmap, fmap_drop. Qed.

Lemma last_n_recent_context (chat_history : list chat_msg) :
  last_n 6 (recent_context chat_history) = last_n 6 chat_history.
Proof.
  unfold recent_context. case_bool_decide; [|reflexivity].
  apply last_n_last_n. lia.
Qed.

(** X10. The reply prompt carries no more of the transcript than its
    last 6 messages: it is the prompt of the transcript cut down to
    them. *)
Theorem reply_prompt_window (d : interview_data) (user_message : string)
    (chat_history : list chat_msg) :
  reply_prompt d user_message chat_history
  = reply_prompt d user_message (last_n 6 chat_history).
Proof.
  unfold reply_prompt. destruct (will_be_closing d); [reflexivity|].
  f_equal. rewrite !last_n_recent_context.
  symmetry. by apply last_n_last_n.
Qed.

(** X11. The analysis prompt carries no more of the transcript than its
    last 4 messages, as lines labelled Analyst for the role 'assistant'
    and Founder for any other role. *)
Theorem analysis_prompt_window (issues : list issue)
    (gathered : gmap string json) (chat_history : list chat_msg) :
  analysis_prompt issues gathered chat_history
  = analysis_prompt issues gathered (last_n 4 chat_history)
  /\ exists fields_needed already_have,
       analysis_prompt issues gathered chat_history
       = AnalysisPrompt fields_needed already_have
           ((λ msg, (if bool_decide (role msg = "assistant")
                     then "Analyst" else "Founder")
                    ++ ": " ++ message msg) <$> last_n 4 chat_history).
Proof.
  unfold analysis_prompt, conversation.
  rewrite !last_n_fmap, !last_n_last_n by lia.
  split; [reflexivity|]. eexists _, _. reflexivity.
Qed.

(** X12. The fields the analysis prompt asks for and the fields it lists
    as already gathered never overlap: at most 10 fields are asked for,
    each the field of a catalog issue that is not a key of
    gathered_info, with the question and the category of that issue;
    the fields listed as gathered are the keys of gathered_info that
    are catalog fields, each once. *)
Theorem analysis_prompt_fields (issues : list issue)
    (gathered : gmap string json) (chat_history : list chat_msg)
    (needed : list (string * string * string)) (already_have conv : list string) :
  analysis_prompt issues gathered chat_history
  = AnalysisPrompt needed already_have conv ->
  (length needed <= 10)%nat
  /\ (forall f q c, (f, q, c) ∈ needed ->
        gathered !! f = None ∧ (f ∉ already_have)
        ∧ exists i, i ∈ issues ∧ field i = f ∧ question i = q ∧ category i = c)
  /\ (forall f, f ∈ already_have <->
        is_Some (gathered !! f) ∧ f ∈ all_issue_fields issues)
  /\ NoDup already_have.
Proof.
  unfold analysis_prompt. intros [= <- <- _].
  assert (Hah : forall f,
            f ∈ filter (λ f, f ∈ all_issue_fields issues) (keys gathered)
            <-> is_Some (gathered !! f) ∧ f ∈ all_issue_fields issues).
  { intros f. rewrite list_elem_of_filter, elem_of_keys. tauto. }
  split; [|split; [|split]].
  - rewrite length_take. lia.
  - intros f q c Hin. apply subseteq_take in Hin.
    apply list_elem_of_fmap in Hin as (i & [= -> -> ->] & Hi).
    apply list_elem_of_filter in Hi as [Hg Hi].
    split; [by apply eq_None_not_Some|]. split.
    + rewrite Hah. tauto.
    + by exists i.
  - exact Hah.
  - apply NoDup_filter, NoDup_fst_map_to_list.
Qed.

Lemma analysis_prompt_fields_witness :
  exists conv,
    analysis_prompt Examples.catalog Examples.answered_revenue Examples.history2
    = AnalysisPrompt
        [("team_size", "Tell me about the size of your team.", "team")]
        ["revenue"] conv
    /\ NoDup ["revenue"].
Proof.
  eexists. split; [vm_compute; reflexivity|].
  eapply (analysis_prompt_fields Examples.catalog Examples.answered_revenue
            Examples.history2).
  vm_compute. reflexivity.
Defined.

(** X13. In continuation mode some catalog issue is neither gathered nor
    cannot-answer; the first of them in catalog order gives both the
    first question of the prompt and the question of the fallback
    reply, so the generic questions are never used in their place. *)
Theorem continuation_first_question (d : interview_data)
    (user_message : string) (chat_history : list chat_msg) :
  will_be_closing d = false ->
  exists i rest,
    still_needed d = i :: rest
    /\ i ∈ issues d
    /\ ¬ is_Some (gathered_info d !! field i)
    /\ (field i ∉ cannot_answer_fields d)
    /\ (exists progress dont_know q2 q3 recent,
          reply_prompt d user_message chat_history
          = ContinuationPrompt (the_founder d) (the_company d) (the_sector d)
              progress (length (issues d)) user_message dont_know
              (question i) q2 q3 recent)
    /\ (forall r, generation_fails r ->
          reply d r = "Thanks for sharing! " ++ question i).
Proof.
  intros Hc.
  destruct (still_needed d) as [|i rest] eqn:Hs.
  { unfold will_be_closing in Hc. rewrite Hs in Hc. discriminate. }
  exists i, rest. split; [reflexivity|].
  assert (Hi : i ∈ still_needed_spec d).
  { rewrite <- still_needed_eq_spec, Hs. by left. }
  apply list_elem_of_filter in Hi as [[Hg Hn] Hi].
  repeat split; try done.
  - unfold reply_prompt. rewrite Hc. unfold next_questions. rewrite Hs.
    unfold all_issue_fields. rewrite length_fmap.
    eexists _, _, _, _, _. reflexivity.
  - intros r Hr. rewrite (reply_fallback _ _ Hr).
    unfold fallback_reply. by rewrite Hc, Hs.
Qed.

Lemma continuation_first_question_witness :
  will_be_closing Examples.revenue_unknown = false
  /\ reply Examples.revenue_unknown Raises
     = "Thanks for sharing! Tell me about the size of your team.".
Proof.
  split; [vm_compute; reflexivity|].
  destruct (continuation_first_question Examples.revenue_unknown "Hello" [])
    as (i & rest & Hs & _ & _ & _ & _ & Hr); [vm_compute; reflexivity|].
  rewrite (Hr Raises gen_raises).
  vm_compute in Hs. injection Hs as <- _. reflexivity.
Defined.

(** * Properties of the document and deal services *)

(** ** Facts about slices, case and replace *)
Module PyFacts.
Import Py.

(** [String c s ++ t] is [String c (s ++ t)]. *)
Ltac app_cons :=
  repeat match goal with
         | |- context [String ?c ?s ++ ?t] =>
             change (String c s ++ t) with (String c (s ++ t))
         | |- context [EmptyString ++ ?t] =>
             change (EmptyString ++ t) with t
         end.

Lemma str_drop_app (p s : string) : str_drop (String.length p) (p ++ s) = s.
Proof.
  induction p as [|c p IH]; [by destruct s|]. app_cons. exact IH.
Qed.

Lemma str_take_app (s t : string) : str_take (String.length s) (s ++ t) = s.
Proof.
  induction s as [|c s IH]; [by destruct t|].
  app_cons. simpl. app_cons. f_equal. exact IH.
Qed.

Lemma length_app (s t : string) :
  String.length (s ++ t) = (String.length s + String.length t)%nat.
Proof.
  induction s as [|c s IH]; [reflexivity|].
  app_cons. simpl. app_cons. f_equal. exact IH.
Qed.

Lemma str_take_str_take (n : nat) (s : string) :
  str_take n (str_take n s) = str_take n s.
Proof.
  revert s. induction n as [|n IH]; intros [|c s]; try reflexivity.
  cbn [str_take]. f_equal. apply IH.
Qed.

Lemma str_take_all (n : nat) (s : string) :
  (String.length s <= n)%nat -> str_take n s = s.
Proof.
  revert s. induction n as [|n IH]; intros [|c s] Hl; try reflexivity.
  - cbn in Hl. lia.
  - cbn [String.length] in Hl. cbn [str_take]. f_equal. apply IH. lia.
Qed.

Lemma prefix_app (p s : string) : String.prefix p (p ++ s) = true.
Proof.
  induction p as [|c p IH]; [app_cons; by destruct s|].
  app_cons. simpl. destruct (ascii_dec c c); [exact IH|congruence].
Qed.

Lemma prefix_shorter (p q s : string) :
  String.prefix (p ++ q) s = true -> String.prefix p s = true.
Proof.
  revert s. induction p as [|c p IH]; intros s H; [by destruct s|].
  revert H. app_cons. destruct s as [|c' s]; simpl; [done|].
  destruct (ascii_dec c c'); [apply IH|done].
Qed.

Lemma contains_app_r (a s sub : string) :
  PyStr.contains s sub = true -> PyStr.contains (a ++ s) sub = true.
Proof.
  intros H. induction a as [|c a IH]; [exact H|].
  app_cons. cbn [PyStr.contains].
  apply orb_true_iff. right. exact IH.
Qed.

Lemma contains_here (sub s : string) : PyStr.contains (sub ++ s) sub = true.
Proof.
  destruct sub as [|c sub]; [by destruct s|].
  pose proof (prefix_app (String c sub) s) as Hp. revert Hp.
  app_cons. intros Hp. cbn [PyStr.contains].
  apply orb_true_iff. by left.
Qed.

Lemma contains_middle (a sub b : string) :
  PyStr.contains (a ++ sub ++ b) sub = true.
Proof. apply contains_app_r, contains_here. Qed.

Lemma lower_app (s t : string) : lower (s ++ t) = lower s ++ lower t.
Proof.
  induction s as [|c s IH]; [reflexivity|].
  app_cons. simpl. app_cons. f_equal. exact IH.
Qed.

Lemma remove_from_skip (old a s : string) :
  remove_from old (String.length a) (a ++ s) = remove_from old 0 s.
Proof.
  induction a as [|c a IH]; [by destruct s|]. app_cons. exact IH.
Qed.

Lemma remove_from_absent (old s : string) :
  PyStr.contains s old = false -> remove_from old 0 s = s.
Proof.
  induction s as [|c s IH]; [reflexivity|].
  cbn [PyStr.contains remove_from]. intros H.
  apply orb_false_iff in H as [Hp Hc]. rewrite Hp, (IH Hc). reflexivity.
Qed.

(** A leading [old] is removed, and a text without [old] is kept. *)
Lemma remove_all_prefix (old s : string) :
  PyStr.contains s old = false -> remove_all old (old ++ s) = s.
Proof.
  intros Hc. destruct old as [|c old]; [reflexivity|].
  unfold remove_all.
  pose proof (prefix_app (String c old) s) as Hp. revert Hp.
  app_cons. intros Hp. cbn [remove_from]. rewrite Hp.
  replace (String.length (String c old) - 1)%nat with (String.length old)
    by (simpl; lia).
  rewrite remove_from_skip. by apply remove_from_absent.
Qed.

Lemma lookup_del_key_eq (key : string) (d : list (string * json)) :
  PyJson.lookup_items key (del_key key d) = None.
Proof.
  induction d as [|[k v] d IH]; [reflexivity|]. cbn.
  destruct (String.eqb k key) eqn:E; [exact IH|]. cbn. by rewrite E.
Qed.

Lemma lookup_del_key_ne (key k' : string) (d : list (string * json)) :
  k' ≠ key ->
  PyJson.lookup_items k' (del_key key d) = PyJson.lookup_items k' d.
Proof.
  intros Hne. induction d as [|[k v] d IH]; [reflexivity|]. cbn.
  destruct (String.eqb_spec k key) as [->|Hk].
  - rewrite IH. destruct (String.eqb_spec key k'); congruence.
  - cbn. by rewrite IH.
Qed.

Lemma lookup_set_key_eq (key : string) (v : json) (d : list (string * json)) :
  PyJson.lookup_items key (set_key key v d) = Some v.
Proof.
  induction d as [|[k v'] d IH]; cbn.
  - by rewrite String.eqb_refl.
  - destruct (String.eqb k key) eqn:E; cbn; rewrite E; [reflexivity|exact IH].
Qed.

Lemma lookup_set_key_ne (key k' : string) (v : json) (d : list (string * json)) :
  k' ≠ key ->
  PyJson.lookup_items k' (set_key key v d) = PyJson.lookup_items k' d.
Proof.
  intros Hne. induction d as [|[k v'] d IH]; cbn.
  - destruct (String.eqb_spec key k'); congruence.
  - destruct (String.eqb_spec k key) as [->|Hk]; cbn.
    + destruct (String.eqb_spec key k'); congruence.
    + by rewrite IH.
Qed.

End PyFacts.

(** ** Backend/services/document_ai.py *)

Lemma strip_fences_json (rest : string) :
  DocumentAI.strip_fences ("```json" ++ rest)
  = Py.str_take (String.length rest - 3) rest.
Proof.
  unfold DocumentAI.strip_fences, Py.startswith.
  rewrite PyFacts.prefix_app. unfold Py.slice.
  rewrite PyFacts.length_app.
  change 7%nat with (String.length "```json") at 2.
  rewrite PyFacts.str_drop_app. f_equal.
  all: simpl; lia.
Qed.

Lemma strip_fences_plain (rest : string) :
  Py.startswith ("```" ++ rest) "```json" = false ->
  DocumentAI.strip_fences ("```" ++ rest)
  = Py.str_take (String.length rest - 3) rest.
Proof.
  intros Hj. unfold DocumentAI.strip_fences. rewrite Hj.
  unfold Py.startswith. rewrite PyFacts.prefix_app. unfold Py.slice.
  rewrite PyFacts.length_app.
  change 3%nat with (String.length "```") at 3.
  rewrite PyFacts.str_drop_app. f_equal.
  all: simpl; lia.
Qed.

Lemma str_take_body (body : string) :
  Py.str_take (String.length (body ++ "```") - 3) (body ++ "```") = body.
Proof.
  rewrite PyFacts.length_app.
  replace (String.length body + String.length "```" - 3)%nat
    with (String.length body) by (simpl; lia).
  apply PyFacts.str_take_app.
Qed.

(** X14. When the response text, stripped, is a JSON text between an
    opening fence (```json or ```) and a closing fence (```), or a JSON
    text that does not open with a fence, [extract_metadata_from_text]
    returns what the JSON text parses into. *)
Theorem fenced_metadata_parsed (json_loads : string -> option json)
    (service : string -> response) (text t body : string) (metadata : json) :
  service (Py.str_take 10000 text) = Text (Some t) ->
  json_loads body = Some metadata ->
  PyStr.strip t = "```json" ++ body ++ "```"
  ∨ (PyStr.strip t = "```" ++ body ++ "```"
     ∧ Py.startswith (PyStr.strip t) "```json" = false)
  ∨ (PyStr.strip t = body ∧ Py.startswith body "```" = false) ->
  DocumentAI.extract_metadata_from_text json_loads service text = metadata.
Proof.
  intros Hs Hj Hshape.
  unfold DocumentAI.extract_metadata_from_text, DocumentAI.metadata_of_response.
  rewrite Hs.
  assert (Hf : DocumentAI.strip_fences (PyStr.strip t) = body).
  { destruct Hshape as [->|[[Ht Hn]|[-> Hn]]].
    - rewrite strip_fences_json. apply str_take_body.
    - rewrite Ht in *. rewrite (strip_fences_plain _ Hn). apply str_take_body.
    - unfold DocumentAI.strip_fences.
      assert (Py.startswith body "```json" = false) as ->.
      { unfold Py.startswith in *.
        destruct (String.prefix "```json" body) eqn:Hp; [|reflexivity].
        apply (PyFacts.prefix_shorter "```" "json") in Hp. congruence. }
      by rewrite Hn. }
  by rewrite Hf, Hj.
Qed.

Lemma fenced_metadata_parsed_witness :
  DocumentAI.extract_metadata_from_text
    (Examples.loads_of MoreExamples.acme)
    (MoreExamples.replying
       ("```json" ++ Examples.dumps MoreExamples.acme ++ "```"))
    "Acme pitch deck"
  = MoreExamples.acme.
Proof.
  apply (fenced_metadata_parsed
           (Examples.loads_of MoreExamples.acme)
           (MoreExamples.replying
              ("```json" ++ Examples.dumps MoreExamples.acme ++ "```"))
           "Acme pitch deck"
           ("```json" ++ Examples.dumps MoreExamples.acme
            ++ "```")
           (Examples.dumps MoreExamples.acme)).
  - reflexivity.
  - vm_compute. reflexivity.
  - left. vm_compute. reflexivity.
Defined.

(** X15. When the response text opens with ```json, the text that is
    parsed is what follows the fence without its last three characters,
    whether or not these are a closing fence. *)
Theorem opening_fence_drops_three (json_loads : string -> option json)
    (service : string -> response) (text t rest : string) :
  service (Py.str_take 10000 text) = Text (Some t) ->
  PyStr.strip t = "```json" ++ rest ->
  DocumentAI.extract_metadata_from_text json_loads service text
  = default DocumentAI.unknown_metadata
      (json_loads (Py.str_take (String.length rest - 3) rest)).
Proof.
  intros Hs Ht.
  unfold DocumentAI.extract_metadata_from_text, DocumentAI.metadata_of_response.
  rewrite Hs, Ht, strip_fences_json.
  by destruct (json_loads _).
Qed.

Lemma opening_fence_drops_three_witness :
  DocumentAI.extract_metadata_from_text
    (Examples.loads_of MoreExamples.acme)
    (MoreExamples.replying ("```json" ++ Examples.dumps MoreExamples.acme))
    "Acme pitch deck"
  = DocumentAI.unknown_metadata.
Proof.
  rewrite (opening_fence_drops_three
             (Examples.loads_of MoreExamples.acme)
             (MoreExamples.replying
                ("```json" ++ Examples.dumps MoreExamples.acme))
             "Acme pitch deck"
             ("```json" ++ Examples.dumps MoreExamples.acme)
             (Examples.dumps MoreExamples.acme));
    [vm_compute; reflexivity | reflexivity | vm_compute; reflexivity].
Defined.

(** X16. [extract_metadata_from_text] reads no more than the first
    10000 characters of the text: it returns the same as on the text cut
    down to them, and a text of at most 10000 characters is read whole. *)
Theorem metadata_text_window (json_loads : string -> option json)
    (service : string -> response) (text : string) :
  DocumentAI.extract_metadata_from_text json_loads service text
  = DocumentAI.extract_metadata_from_text json_loads service
      (Py.str_take 10000 text)
  /\ ((String.length text <= 10000)%nat ->
      DocumentAI.extract_metadata_from_text json_loads service text
      = match DocumentAI.metadata_of_response json_loads (service text) with
        | inr metadata => metadata
        | inl _ => DocumentAI.unknown_metadata
        end).
Proof.
  unfold DocumentAI.extract_metadata_from_text. split.
  - by rewrite PyFacts.str_take_str_take.
  - intros Hl. by rewrite PyFacts.str_take_all.
Qed.

(** X17. A failure of the upload or of the processing whose message
    holds 'pages exceed the limit' in any letter case, or
    'PAGE_LIMIT_EXCEEDED' as it is, is reported with status 400 and the
    page-limit detail. *)
Theorem page_limit_reported (Page C : Type)
    (uploaded : string + string)
    (processed : string + DocumentAI.document Page C)
    (before mark after : string) :
  uploaded = inl (before ++ mark ++ after)
  ∨ (exists gcs_uri, uploaded = inr gcs_uri
                     ∧ processed = inl (before ++ mark ++ after)) ->
  Py.lower mark = "pages exceed the limit" ∨ mark = "PAGE_LIMIT_EXCEEDED" ->
  DocumentAI.extract_text_from_pdf uploaded processed
  = inl (HTTPException 400
           "Document exceeds 30-page limit for fast processing. Please use a smaller document or contact support for batch processing.").
Proof.
  intros Hfail Hmark.
  assert (He : DocumentAI.extraction_error (before ++ mark ++ after)
               = HTTPException 400
                   "Document exceeds 30-page limit for fast processing. Please use a smaller document or contact support for batch processing.").
  { unfold DocumentAI.extraction_error.
    destruct Hmark as [Hl| ->].
    - rewrite !PyFacts.lower_app, Hl, PyFacts.contains_middle.
      by rewrite orb_true_r.
    - by rewrite PyFacts.contains_middle. }
  unfold DocumentAI.extract_text_from_pdf.
  destruct Hfail as [->|(uri & -> & ->)]; by rewrite He.
Qed.

Lemma page_limit_reported_witness :
  DocumentAI.extract_text_from_pdf (Page := unit) (C := Z)
    (inr "gs://bucket/deals/d1/pitch_deck.pdf")
    (inl "400 Document Pages Exceed The Limit: 42 got 30")
  = inl (HTTPException 400
           "Document exceeds 30-page limit for fast processing. Please use a smaller document or contact support for batch processing.").
Proof.
  apply (page_limit_reported unit Z
           (inr "gs://bucket/deals/d1/pitch_deck.pdf")
           (inl "400 Document Pages Exceed The Limit: 42 got 30")
           "400 Document " "Pages Exceed The Limit" ": 42 got 30").
  - right. by eexists.
  - left. vm_compute. reflexivity.
Defined.


(** ** Backend/routers/deals.py *)

Section DealFacts.

Variable str : Py.error -> string.

Lemma not_owner_false (deal_data : list (string * json)) (current_user : string) :
  Deals.not_owner deal_data current_user = inr false ->
  exists metadata,
    PyJson.lookup_items "metadata" deal_data = Some (JDict metadata)
    ∧ PyJson.lookup_items "user_id" metadata = Some (JStr current_user).
Proof.
  unfold Deals.not_owner.
  destruct (PyJson.lookup_items "metadata" deal_data) as [[| | | | |md]|];
    cbn; try discriminate.
  - destruct (PyJson.lookup_items "user_id" md) as [[| | |s| |]|] eqn:E;
      cbn; try discriminate.
    destruct (String.eqb_spec s current_user) as [->|]; [|discriminate].
    intros _. by exists md.
Qed.

Lemma not_owner_true (deal_data metadata : list (string * json))
    (current_user : string) :
  PyJson.lookup_items "metadata" deal_data = Some (JDict metadata) ->
  PyJson.lookup_items "user_id" metadata ≠ Some (JStr current_user) ->
  Deals.not_owner deal_data current_user = inr true.
Proof.
  intros Hm Hu. unfold Deals.not_owner. rewrite Hm. cbn.
  destruct (PyJson.lookup_items "user_id" metadata) as [[| | |s| |]|];
    cbn; try reflexivity.
  destruct (String.eqb_spec s current_user) as [->|]; [done|reflexivity].
Qed.

Lemma drop_extracted_text_lookup (include_extracted_text : bool)
    (deal_data : list (string * json)) (k : string) :
  PyJson.lookup_items k (Deals.drop_extracted_text include_extracted_text deal_data)
  = if negb include_extracted_text && bool_decide (k = "extracted_text")
    then None else PyJson.lookup_items k deal_data.
Proof.
  unfold Deals.drop_extracted_text, Py.has_key.
  destruct include_extracted_text; cbn [negb andb]; [reflexivity|].
  case_bool_decide as Hk.
  - subst k. destruct (PyJson.lookup_items "extracted_text" deal_data) eqn:E;
      [apply PyFacts.lookup_del_key_eq|exact E].
  - destruct (PyJson.lookup_items "extracted_text" deal_data);
      [by apply PyFacts.lookup_del_key_ne|reflexivity].
Qed.

End DealFacts.

(** X18. [get_deal] returns a deal only to its owner: when it returns,
    the document exists and its metadata is a dict whose user_id is the
    current user. *)
Theorem get_deal_owner_only (str : Py.error -> string)
    (fetched : Py.error + option (list (string * json)))
    (include_extracted_text : bool) (current_user : string)
    (data : list (string * json)) :
  Deals.get_deal str fetched include_extracted_text current_user = inr data ->
  exists deal_data metadata,
    fetched = inr (Some deal_data)
    ∧ PyJson.lookup_items "metadata" deal_data = Some (JDict metadata)
    ∧ PyJson.lookup_items "user_id" metadata = Some (JStr current_user).
Proof.
  unfold Deals.get_deal.
  destruct fetched as [e|[deal_data|]]; try discriminate.
  destruct (Deals.not_owner deal_data current_user) as [e|[|]] eqn:Ho;
    try discriminate.
  intros _. apply not_owner_false in Ho as (md & Hm & Hu).
  by exists deal_data, md.
Qed.

(** X19. What [get_deal] returns is the stored document: without its
    extracted_text unless that was asked for, and with every other key
    as stored. *)
Theorem get_deal_content (str : Py.error -> string)
    (deal_data : list (string * json))
    (include_extracted_text : bool) (current_user : string)
    (data : list (string * json)) :
  Deals.get_deal str (inr (Some deal_data)) include_extracted_text current_user
  = inr data ->
  (include_extracted_text = true -> data = deal_data)
  /\ (include_extracted_text = false ->
      PyJson.lookup_items "extracted_text" data = None)
  /\ (forall k, k ≠ "extracted_text" ->
        PyJson.lookup_items k data = PyJson.lookup_items k deal_data).
Proof.
  unfold Deals.get_deal.
  destruct (Deals.not_owner deal_data current_user) as [e|[|]];
    try discriminate.
  intros [= <-]. split; [|split].
  - by intros ->.
  - intros ->. by rewrite drop_extracted_text_lookup.
  - intros k Hk. rewrite drop_extracted_text_lookup.
    rewrite bool_decide_eq_false_2 by done. by rewrite andb_false_r.
Qed.

Lemma get_deal_owner_only_witness :
  exists data,
    Deals.get_deal MoreExamples.message_of (inr (Some MoreExamples.deal))
      false "alice" = inr data
    /\ exists metadata,
         PyJson.lookup_items "metadata" MoreExamples.deal = Some (JDict metadata)
         ∧ PyJson.lookup_items "user_id" metadata = Some (JStr "alice").
Proof.
  destruct (Deals.get_deal MoreExamples.message_of
              (inr (Some MoreExamples.deal)) false "alice")
    as [err|data] eqn:Hg; [vm_compute in Hg; discriminate Hg|].
  exists data. split; [reflexivity|].
  destruct (get_deal_owner_only _ _ _ _ _ Hg) as (doc & md & [= <-] & Hm & Hu).
  by exists md.
Defined.

Lemma get_deal_content_witness :
  exists data,
    Deals.get_deal MoreExamples.message_of (inr (Some MoreExamples.deal))
      false "alice" = inr data
    /\ PyJson.lookup_items "extracted_text" data = None
    /\ is_Some (PyJson.lookup_items "memo" data).
Proof.
  destruct (Deals.get_deal MoreExamples.message_of
              (inr (Some MoreExamples.deal)) false "alice")
    as [err|data] eqn:Hg; [vm_compute in Hg; discriminate Hg|].
  exists data. split; [reflexivity|].
  destruct (get_deal_content _ _ _ _ _ Hg) as (_ & Hx & Hk).
  split; [by apply Hx|]. rewrite Hk by discriminate. vm_compute. by eexists.
Defined.

(** X20. [get_all_deals] returns one deal for each document streamed,
    in the same order, and counts them: the deal has the id of its
    document under 'id', whatever 'id' the document stored, has no
    extracted_text unless that was asked for, and has every other key
    as stored. *)
Theorem get_all_deals_listing (str : Py.error -> string)
    (docs : list (string * list (string * json))) (limit offset : Z)
    (include_extracted_text : bool) :
  exists listing,
    Deals.get_all_deals str (inr docs) limit offset include_extracted_text
    = inr listing
    /\ Deals.count listing = length docs
    /\ length (Deals.deals listing) = length docs
    /\ forall n id doc,
         docs !! n = Some (id, doc) ->
         exists data,
           Deals.deals listing !! n = Some data
           ∧ PyJson.lookup_items "id" data = Some (JStr id)
           ∧ (include_extracted_text = false ->
              PyJson.lookup_items "extracted_text" data = None)
           ∧ forall k, k ≠ "id" ->
               include_extracted_text = true ∨ k ≠ "extracted_text" ->
               PyJson.lookup_items k data = PyJson.lookup_items k doc.
Proof.
  eexists. split; [reflexivity|]. cbn [Deals.count Deals.deals].
  rewrite length_fmap. split; [reflexivity|]. split; [reflexivity|].
  intros n id doc Hn. eexists. split.
  { rewrite list_lookup_fmap, Hn. reflexivity. }
  cbn [fst snd]. split; [|split].
  - rewrite drop_extracted_text_lookup.
    rewrite bool_decide_eq_false_2 by discriminate.
    rewrite andb_false_r. apply PyFacts.lookup_set_key_eq.
  - intros ->. by rewrite drop_extracted_text_lookup.
  - intros k Hid Hk. rewrite drop_extracted_text_lookup.
    rewrite PyFacts.lookup_set_key_ne by done.
    destruct Hk as [->|Hk]; [reflexivity|].
    rewrite bool_decide_eq_false_2 by done. by rewrite andb_false_r.
Qed.

Lemma get_all_deals_listing_witness :
  exists listing data,
    Deals.get_all_deals MoreExamples.message_of
      (inr [("d1", MoreExamples.deal)]) 50 0 false = inr listing
    /\ Deals.deals listing !! 0%nat = Some data
    /\ PyJson.lookup_items "id" data = Some (JStr "d1").
Proof.
  destruct (get_all_deals_listing MoreExamples.message_of
              [("d1", MoreExamples.deal)] 50 0 false)
    as (listing & Hl & _ & _ & Hd).
  destruct (Hd 0%nat "d1" MoreExamples.deal eq_refl) as (data & Hn & Hid & _).
  by exists listing, data.
Defined.

Section DownloadFacts.

Variable str : Py.error -> string.
Variable format : json -> string.
Variable bucket_name : string.

Lemma lacks_false (deal_data d : list (string * json)) (key1 key2 : string) (v : json) :
  PyJson.lookup_items key1 deal_data = Some (JDict d) ->
  PyJson.lookup_items key2 d = Some v ->
  Deals.lacks deal_data key1 key2 = inr false.
Proof.
  intros H1 H2. unfold Deals.lacks. rewrite H1. cbn.
  unfold Py.has_key. by rewrite H2.
Qed.

Lemma gcs_path_of_stored (deal_data d : list (string * json))
    (key1 key2 path : string) :
  PyJson.lookup_items key1 deal_data = Some (JDict d) ->
  PyJson.lookup_items key2 d
  = Some (JStr (("gs://" ++ bucket_name ++ "/") ++ path)) ->
  PyStr.contains path ("gs://" ++ bucket_name ++ "/") = false ->
  Deals.gcs_path_of bucket_name deal_data key1 key2 = inr path.
Proof.
  intros H1 H2 Hc. unfold Deals.gcs_path_of. cbn. rewrite H1. cbn.
  rewrite H2. f_equal. by apply PyFacts.remove_all_prefix.
Qed.

End DownloadFacts.

(** X21. [download_pitch_deck] does not look at the owner of a deal: for
    a stored deal whose pitch_deck_url is the bucket prefix followed by
    a path, it downloads that path and serves the file as a PDF named
    after the company and the deal, also when [get_deal] refuses the
    same deal to the one who asks. *)
Theorem download_pitch_deck_unchecked (str : Py.error -> string)
    (format : json -> string) (bucket_name : string)
    (download : string -> Py.error + list Byte.byte)
    (deal_data raw_files metadata : list (string * json))
    (deal_id path : string) (file_content : list Byte.byte) :
  PyJson.lookup_items "raw_files" deal_data = Some (JDict raw_files) ->
  PyJson.lookup_items "pitch_deck_url" raw_files
  = Some (JStr (("gs://" ++ bucket_name ++ "/") ++ path)) ->
  PyStr.contains path ("gs://" ++ bucket_name ++ "/") = false ->
  PyJson.lookup_items "metadata" deal_data = Some (JDict metadata) ->
  download path = inr file_content ->
  Deals.download_pitch_deck str format bucket_name (inr (Some deal_data))
    download deal_id
  = inr {| Deals.content := file_content;
           Deals.media_type := "application/pdf";
           Deals.content_disposition :=
             "attachment; filename="
             ++ Deals.formatted format
                  (default (JStr "Unknown")
                     (PyJson.lookup_items "company_name" metadata))
             ++ "_Pitch_Deck_" ++ deal_id ++ ".pdf" |}
  /\ forall current_user include_extracted_text,
       PyJson.lookup_items "user_id" metadata ≠ Some (JStr current_user) ->
       Deals.get_deal str (inr (Some deal_data)) include_extracted_text
         current_user
       = inl (HTTPException 403 "Access denied").
Proof.
  intros Hr Hu Hc Hm Hd. split.
  - unfold Deals.download_pitch_deck.
    rewrite (lacks_false _ _ _ _ _ Hr Hu).
    unfold Deals.serve.
    rewrite (gcs_path_of_stored _ _ _ _ _ _ Hr Hu Hc), Hd.
    unfold Deals.company_name_of. cbn. rewrite Hm. reflexivity.
  - intros current_user incl Hne. unfold Deals.get_deal.
    by rewrite (not_owner_true _ _ _ Hm Hne).
Qed.

Lemma download_pitch_deck_unchecked_witness :
  Deals.get_deal MoreExamples.message_of (inr (Some MoreExamples.deal))
    false "bob"
  = inl (HTTPException 403 "Access denied")
  /\ Deals.download_pitch_deck MoreExamples.message_of
       (fun _ => "?") "decks" (inr (Some MoreExamples.deal))
       (fun path => if String.eqb path "deals/d1/pitch_deck.pdf"
                    then inr [Byte.x25; Byte.x50; Byte.x44; Byte.x46]
                    else inl (Py.External "404 No such object"))
       "d1"
     = inr {| Deals.content := [Byte.x25; Byte.x50; Byte.x44; Byte.x46];
              Deals.media_type := "application/pdf";
              Deals.content_disposition :=
                "attachment; filename=Acme_Pitch_Deck_d1.pdf" |}.
Proof.
  destruct (download_pitch_deck_unchecked MoreExamples.message_of
              (fun _ => "?") "decks"
              (fun path => if String.eqb path "deals/d1/pitch_deck.pdf"
                           then inr [Byte.x25; Byte.x50; Byte.x44; Byte.x46]
                           else inl (Py.External "404 No such object"))
              MoreExamples.deal
              [("pitch_deck_url", JStr "gs://decks/deals/d1/pitch_deck.pdf")]
              [("user_id", JStr "alice"); ("company_name", JStr "Acme")]
              "d1" "deals/d1/pitch_deck.pdf"
              [Byte.x25; Byte.x50; Byte.x44; Byte.x46])
    as [Hserved Hrefused]; try (vm_compute; reflexivity).
  split.
  - apply Hrefused. vm_compute. discriminate.
  - exact Hserved.
Defined.

(** X22. [download_memo] serves a memo only to the owner of the deal:
    when it returns, the metadata of the stored deal is a dict whose
    user_id is the current user, the deal has a memo with a docx_url,
    and the file served is the one downloaded from that url without the
    bucket prefix. *)
Theorem download_memo_owner_only (str : Py.error -> string)
    (format : json -> string) (bucket_name : string)
    (fetched : Py.error + option (list (string * json)))
    (download : string -> Py.error + list Byte.byte)
    (deal_id current_user : string) (served : Deals.streaming_response) :
  Deals.download_memo str format bucket_name fetched download deal_id
    current_user = inr served ->
  exists deal_data metadata memo url,
    fetched = inr (Some deal_data)
    ∧ PyJson.lookup_items "metadata" deal_data = Some (JDict metadata)
    ∧ PyJson.lookup_items "user_id" metadata = Some (JStr current_user)
    ∧ PyJson.lookup_items "memo" deal_data = Some (JDict memo)
    ∧ PyJson.lookup_items "docx_url" memo = Some (JStr url)
    ∧ download (Py.remove_all ("gs://" ++ bucket_name ++ "/") url)
      = inr (Deals.content served).
Proof.
  unfold Deals.download_memo.
  destruct fetched as [e|[deal_data|]]; try discriminate.
  destruct (Deals.not_owner deal_data current_user) as [e|[|]] eqn:Ho;
    try discriminate.
  apply not_owner_false in Ho as (md & Hm & Hu).
  destruct (Deals.lacks deal_data "memo" "docx_url") as [e|[|]];
    try discriminate.
  unfold Deals.serve, Deals.gcs_path_of. cbn.
  destruct (PyJson.lookup_items "memo" deal_data) as [[| | | | |memo]|]
    eqn:Hmemo; cbn; try discriminate.
  destruct (PyJson.lookup_items "docx_url" memo) as [[| | |url| |]|] eqn:Hurl;
    cbn; try discriminate.
  destruct (download _) as [e|file_content] eqn:Hd; [discriminate|].
  destruct (Deals.company_name_of deal_data); [discriminate|].
  intros [= <-]. exists deal_data, md, memo, url. by repeat split.
Qed.

Lemma download_memo_owner_only_witness :
  exists served,
    Deals.download_memo MoreExamples.message_of (fun _ => "?") "decks"
      (inr (Some MoreExamples.deal))
      (fun path => if String.eqb path "deals/d1/memo.docx"
                   then inr [Byte.x50; Byte.x4b]
                   else inl (Py.External "404 No such object"))
      "d1" "alice" = inr served
    /\ exists metadata,
         PyJson.lookup_items "metadata" MoreExamples.deal = Some (JDict metadata)
         ∧ PyJson.lookup_items "user_id" metadata = Some (JStr "alice").
Proof.
  destruct (Deals.download_memo MoreExamples.message_of (fun _ => "?") "decks"
              (inr (Some MoreExamples.deal))
              (fun path => if String.eqb path "deals/d1/memo.docx"
                           then inr [Byte.x50; Byte.x4b]
                           else inl (Py.External "404 No such object"))
              "d1" "alice")
    as [err|served] eqn:Hs; [vm_compute in Hs; discriminate Hs|].
  exists served. split; [reflexivity|].
  destruct (download_memo_owner_only _ _ _ _ _ _ _ _ Hs)
    as (doc & md & memo & url & [= <-] & Hm & Hu & _).
  by exists md.
Defined.

(** X23. [delete_deal] never touches another deal. It changes the
    collection only when it succeeds, by removing the deal, and it
    succeeds only for the owner of the deal; when it refuses with a
    status other than 500, the file store is left as it was. *)
Theorem delete_deal_effect (str : Py.error -> string) (bucket_name : string)
    (Store : Type) (delete_blob : string -> Store -> (Py.error + unit) * Store)
    (db : gmap string (list (string * json))) (files : Store)
    (read_fails delete_fails : option Py.error)
    (deal_id current_user : string) :
  let r := Deals.delete_deal str bucket_name Store delete_blob db files
             read_fails delete_fails deal_id current_user in
  (forall k, k ≠ deal_id -> r.1.2 !! k = db !! k)
  /\ match r.1.1 with
     | inr _ =>
         r.1.2 !! deal_id = None
         ∧ exists deal_data metadata,
             db !! deal_id = Some deal_data
             ∧ PyJson.lookup_items "metadata" deal_data = Some (JDict metadata)
             ∧ PyJson.lookup_items "user_id" metadata = Some (JStr current_user)
     | inl (HTTPException status _) =>
         r.1.2 = db ∧ (status ≠ 500%nat -> r.2 = files)
     end.
Proof.
  cbv zeta. unfold Deals.delete_deal.
  destruct read_fails as [e|]; [by cbn|].
  destruct (db !! deal_id) as [deal_data|] eqn:Hdb; [|by cbn].
  destruct (Deals.not_owner deal_data current_user) as [e|[|]] eqn:Ho;
    [by cbn|by cbn|].
  destruct delete_fails as [e|]; [by cbn|].
  cbn [fst snd]. split.
  - intros k Hk. by rewrite lookup_delete_ne.
  - split; [apply lookup_delete_eq|].
    apply not_owner_false in Ho as (md & Hm & Hu).
    by exists deal_data, md.
Qed.

(** X24. For the owner of a stored deal, when the document store does
    not fail, [delete_deal] removes the deal whatever happens to its
    files; and when the deletion of the pitch deck file fails, the
    deletion of the memo file is not attempted: the file store is left
    as that failure left it. *)
Theorem delete_deal_despite_files (str : Py.error -> string)
    (bucket_name : string) (Store : Type)
    (delete_blob : string -> Store -> (Py.error + unit) * Store)
    (db : gmap string (list (string * json))) (files : Store)
    (deal_id current_user : string) (deal_data : list (string * json)) :
  db !! deal_id = Some deal_data ->
  Deals.not_owner deal_data current_user = inr false ->
  let r := Deals.delete_deal str bucket_name Store delete_blob db files
             None None deal_id current_user in
  r.1.1 = inr [("message", JStr "Deal deleted successfully");
               ("deal_id", JStr deal_id)]
  /\ r.1.2 = delete deal_id db
  /\ forall path e files',
       Deals.lacks deal_data "raw_files" "pitch_deck_url" = inr false ->
       Deals.gcs_path_of bucket_name deal_data "raw_files" "pitch_deck_url"
       = inr path ->
       delete_blob path files = (inl e, files') ->
       r.2 = files'.
Proof.
  intros Hdb Ho. cbv zeta. unfold Deals.delete_deal. rewrite Hdb, Ho.
  cbn [fst snd]. split; [reflexivity|]. split; [reflexivity|].
  intros path e files' Hl Hp Hd. unfold Deals.delete_files.
  by rewrite Hl, Hp, Hd.
Qed.

Lemma delete_deal_despite_files_witness :
  let r := Deals.delete_deal MoreExamples.message_of "decks" (list string)
             MoreExamples.delete_from {[ "d1" := MoreExamples.deal ]}
             ["deals/d1/memo.docx"] None None "d1" "alice" in
  ({[ "d1" := MoreExamples.deal ]} : gmap string (list (string * json)))
    !! "d1" = Some MoreExamples.deal
  /\ r.1.2 = delete "d1" {[ "d1" := MoreExamples.deal ]}
  /\ r.2 = ["deals/d1/memo.docx"].
Proof.
  cbv zeta. split; [vm_compute; reflexivity|].
  destruct (delete_deal_despite_files MoreExamples.message_of "decks"
              (list string) MoreExamples.delete_from
              {[ "d1" := MoreExamples.deal ]} ["deals/d1/memo.docx"]
              "d1" "alice" MoreExamples.deal)
    as (_ & Hdb & Hfiles); [vm_compute; reflexivity..|].
  split; [exact Hdb|].
  apply (Hfiles "deals/d1/pitch_deck.pdf" (Py.External "404 No such object"));
    vm_compute; reflexivity.
Defined.

(** X25. The memo that [regenerate_memo] stores is the existing memo
    with risk_metrics and conclusion taken from the recalculation and
    _weightage_used set to the weightage; every other section of the
    existing memo is kept as it was. *)
Theorem updated_memo_sections (existing_memo recalculated weightage : json)
    (updated : list (string * json)) :
  Deals.updated_memo existing_memo recalculated weightage = inr updated ->
  exists memo risk_metrics conclusion,
    existing_memo = JDict memo
    ∧ Py.subscript recalculated "risk_metrics" = inr risk_metrics
    ∧ Py.subscript recalculated "conclusion" = inr conclusion
    ∧ PyJson.lookup_items "risk_metrics" updated = Some risk_metrics
    ∧ PyJson.lookup_items "conclusion" updated = Some conclusion
    ∧ PyJson.lookup_items "_weightage_used" updated = Some weightage
    ∧ forall k, k ≠ "risk_metrics" -> k ≠ "conclusion" ->
        k ≠ "_weightage_used" ->
        PyJson.lookup_items k updated = PyJson.lookup_items k memo.
Proof.
  unfold Deals.updated_memo.
  destruct existing_memo as [| | | |l|memo]; try discriminate.
  { destruct (Py.subscript recalculated "risk_metrics"); discriminate. }
  destruct (Py.subscript recalculated "risk_metrics") as [e|rm]; [discriminate|].
  destruct (Py.subscript recalculated "conclusion") as [e|c]; [discriminate|].
  intros [= <-]. exists memo, rm, c. do 3 (split; [reflexivity|]).
  split; [|split; [|split]].
  - rewrite PyFacts.lookup_set_key_ne by discriminate.
    rewrite PyFacts.lookup_set_key_ne by discriminate.
    by rewrite PyFacts.lookup_set_key_eq.
  - rewrite PyFacts.lookup_set_key_ne by discriminate.
    by rewrite PyFacts.lookup_set_key_eq.
  - apply PyFacts.lookup_set_key_eq.
  - intros k H1 H2 H3. by rewrite !PyFacts.lookup_set_key_ne.
Qed.

Lemma updated_memo_sections_witness :
  exists updated,
    Deals.updated_memo
      (JDict [("summary", JStr "A fintech."); ("conclusion", JStr "Pass")])
      (JDict [("risk_metrics", JDict [("score", JNum 70)]);
              ("conclusion", JStr "Invest")])
      (JDict [("traction", JNum 40)]) = inr updated
    /\ PyJson.lookup_items "summary" updated = Some (JStr "A fintech.").
Proof.
  destruct (Deals.updated_memo
              (JDict [("summary", JStr "A fintech."); ("conclusion", JStr "Pass")])
              (JDict [("risk_metrics", JDict [("score", JNum 70)]);
                      ("conclusion", JStr "Invest")])
              (JDict [("traction", JNum 40)]))
    as [err|updated] eqn:Hu; [vm_compute in Hu; discriminate Hu|].
  exists updated. split; [reflexivity|].
  destruct (updated_memo_sections _ _ _ _ Hu)
    as (memo & rm & c & [= <-] & _ & _ & _ & _ & _ & Hk).
  rewrite Hk by discriminate. reflexivity.
Defined.
